(** * Status collection of the Tailscale LuCI view

    A shallow embedding of the two collectors of the view
    ([loadInterfaceInfo] and [loadPeerStatus]) and of the JavaScript
    operations they rest on.

    Conventions of the model.
    - A JavaScript string is a [string]: a sequence of code units below 256.
    - A JavaScript number is an exact rational ([Q]); the rounding of
      doubles is not modelled, and what is stated of byte counts is stated
      of the integers a double holds exactly.
    - The host framework ([fs], [_], [String.prototype.format]) is not part
      of the repository: the results of [fs.read] and [fs.exec] are inputs
      of the collectors, the translation function is a section variable and
      the two format directives in use are modelled from the specification. *)

From Stdlib Require Import Bool List Ascii String ZArith QArith Lia.
From Stdlib Require Import Numbers.DecimalString Numbers.DecimalPos Numbers.DecimalN.
Import ListNotations.

Set Warnings "-register-all".

Local Open Scope string_scope.
Local Open Scope Z_scope.

(** ** Strings *)

Module Str.

(** White space as [String.prototype.trim] and the regular expression class
    [\s] see it, among the code units below 256: TAB, LF, VT, FF, CR, SP and
    NBSP. *)
Definition is_ws (c : ascii) : bool :=
  match N_of_ascii c with
  | 9%N | 10%N | 11%N | 12%N | 13%N | 32%N | 160%N => true
  | _ => false
  end.

(** The class [[0-9]]. *)
Definition is_digit (c : ascii) : bool :=
  let n := N_of_ascii c in ((48 <=? n) && (n <=? 57))%N.

(** The class [[0-9.]]. *)
Definition is_digit_dot (c : ascii) : bool :=
  is_digit c || Ascii.eqb c ".".

(** The class [[0-9a-fA-F:]]. *)
Definition is_hex_colon (c : ascii) : bool :=
  let n := N_of_ascii c in
  (is_digit c || ((97 <=? n) && (n <=? 102)) || ((65 <=? n) && (n <=? 70)))%N
  || Ascii.eqb c ":".

(** A string is truthy when it is not empty. *)
Definition truthy (s : string) : bool :=
  match s with EmptyString => false | String _ _ => true end.

(** The longest prefix whose characters satisfy [p], and what follows it. *)
Fixpoint take_while (p : ascii -> bool) (s : string) : string :=
  match s with
  | String c s' => if p c then String c (take_while p s') else EmptyString
  | EmptyString => EmptyString
  end.

Fixpoint drop_while (p : ascii -> bool) (s : string) : string :=
  match s with
  | String c s' => if p c then drop_while p s' else s
  | EmptyString => EmptyString
  end.

Fixpoint all (p : ascii -> bool) (s : string) : bool :=
  match s with
  | String c s' => p c && all p s'
  | EmptyString => true
  end.

(** [strip_prefix lit s] is what follows [lit] at the start of [s]. *)
Fixpoint strip_prefix (lit s : string) : option string :=
  match lit, s with
  | EmptyString, _ => Some s
  | String a lit', String c s' =>
      if Ascii.eqb a c then strip_prefix lit' s' else None
  | String _ _, EmptyString => None
  end.

(** [String.prototype.startsWith]. *)
Definition startsWith (s lit : string) : bool :=
  match strip_prefix lit s with Some _ => true | None => false end.

(** [String.prototype.includes]: [lit] starts at some position of [s]. *)
Fixpoint includes (s lit : string) : bool :=
  startsWith s lit ||
  match s with
  | String _ s' => includes s' lit
  | EmptyString => false
  end.

Definition trimStart (s : string) : string := drop_while is_ws s.

Fixpoint trimEnd (s : string) : string :=
  match s with
  | EmptyString => EmptyString
  | String c s' =>
      match trimEnd s' with
      | EmptyString => if is_ws c then EmptyString else String c EmptyString
      | t => String c t
      end
  end.

(** [String.prototype.trim]. *)
Definition trim (s : string) : string := trimEnd (trimStart s).

(** [String.prototype.split] with a separator of one character: the pieces
    between the separators, at least one piece. *)
Fixpoint split (sep : ascii) (s : string) : list string :=
  match s with
  | EmptyString => [EmptyString]
  | String c s' =>
      if Ascii.eqb c sep then EmptyString :: split sep s'
      else match split sep s' with
           | piece :: rest => String c piece :: rest
           | [] => [String c EmptyString]
           end
  end.

Definition LF : ascii := ascii_of_N 10.

End Str.

(** ** Numbers *)

Module Num.

(** The decimal numeral at the start of [s] (possibly empty) and the rest. *)
Fixpoint take_digits (s : string) : Decimal.uint * string :=
  match s with
  | EmptyString => (Decimal.Nil, EmptyString)
  | String c s' =>
      if Str.is_digit c then
        let (u, rest) := take_digits s' in
        match uint_of_char c (Some u) with
        | Some u' => (u', rest)
        | None => (Decimal.Nil, s)
        end
      else (Decimal.Nil, s)
  end.

(** An optional sign: whether it is a minus, and what follows it. *)
Definition sign_split (s : string) : bool * string :=
  match s with
  | String "-" s' => (true, s')
  | String "+" s' => (false, s')
  | _ => (false, s)
  end.

(** The integers from [- MAX_EXACT] to [MAX_EXACT] are the ones a number of
    the source, a double, holds one by one: 2 ^ 53. *)
Definition MAX_EXACT : Z := 9007199254740992.

(** [parseInt(s, 10)]: leading white space is skipped, a sign is accepted,
    then the longest run of decimal digits is read; [None] is NaN. The
    result here is the integer that was read. The source's result is that
    integer rounded to a double, which is the integer itself as long as it
    lies within [MAX_EXACT]; beyond it the two differ, and what is proved
    of counts is stated within that range. *)
Definition parseInt (s : string) : option Z :=
  let (neg, body) := sign_split (Str.trimStart s) in
  match take_digits body with
  | (Decimal.Nil, _) => None
  | (u, _) => let n := Z.of_N (N.of_uint u) in Some (if neg then - n else n)
  end.

(** [x || 0] on the result of [parseInt]: NaN and zero are falsy. *)
Definition or_zero (x : option Z) : Z :=
  match x with Some n => n | None => 0 end.

(** Decimal text of a natural number. *)
Definition decimal (n : Z) : string :=
  NilEmpty.string_of_uint (N.to_uint (Z.to_N n)).

End Num.

(** ** JavaScript values *)

(** The values the status document and the replies of [fs.exec] are made of.
    An object is the list of its own properties in enumeration order. *)
Inductive value : Type :=
  | VUndefined
  | VNull
  | VBool (b : bool)
  | VNum (q : Q)
  | VStr (s : string)
  | VArr (items : list value)
  | VObj (props : list (string * value)).

Module Js.

(** ToBoolean. *)
Definition truthy (v : value) : bool :=
  match v with
  | VUndefined | VNull => false
  | VBool b => b
  | VNum q => negb (Qnum q =? 0)
  | VStr s => Str.truthy s
  | VArr _ | VObj _ => true
  end.

(** [a || b]. *)
Definition or (a b : value) : value := if truthy a then a else b.

(** An outcome of evaluating JavaScript code: a value, or a thrown error
    with its [message]. *)
Inductive completion (A : Type) : Type :=
  | Normal (a : A)
  | Throw (message : string).
Arguments Normal {A} a.
Arguments Throw {A} message.

Definition bind {A B} (c : completion A) (k : A -> completion B) : completion B :=
  match c with
  | Normal a => k a
  | Throw m => Throw m
  end.

Fixpoint assoc (k : string) (props : list (string * value)) : option value :=
  match props with
  | [] => None
  | (k', v) :: rest => if String.eqb k k' then Some v else assoc k rest
  end.

(** The property read [v.k] for the property names the view uses (none of
    them is defined by a prototype): a TypeError on [null] and [undefined],
    the own property of an object, [undefined] on every other value. *)
Definition get (v : value) (k : string) : completion value :=
  match v with
  | VUndefined =>
      Throw ("Cannot read properties of undefined (reading '" ++ k ++ "')")
  | VNull => Throw ("Cannot read properties of null (reading '" ++ k ++ "')")
  | VObj props =>
      Normal (match assoc k props with Some x => x | None => VUndefined end)
  | _ => Normal VUndefined
  end.

(** The optional element read [v?.[0]]. *)
Definition first (v : value) : value :=
  match v with
  | VArr (x :: _) => x
  | VStr (String c _) => VStr (String c EmptyString)
  | VObj props => match assoc "0" props with Some x => x | None => VUndefined end
  | _ => VUndefined
  end.

(** [Object.values]: the own enumerable property values, in enumeration
    order; the characters of a string; nothing for a number or a boolean;
    a TypeError on [null] and [undefined]. *)
Definition values (v : value) : completion (list value) :=
  match v with
  | VObj props => Normal (map snd props)
  | VArr items => Normal items
  | VStr s =>
      Normal (map (fun c => VStr (String c EmptyString)) (list_ascii_of_string s))
  | VBool _ | VNum _ => Normal []
  | VUndefined | VNull =>
      Throw "Cannot convert undefined or null to object"
  end.

End Js.

(** ** The format directives of the host framework *)

Module Format.

Definition MB : Z := 1048576.

(** The first [k] digits after the decimal point of [r / d], for
    [0 <= r < d], stopping where the expansion ends. *)
Fixpoint frac_digits (k : nat) (r d : Z) : list Z :=
  match k with
  | O => []
  | S k' =>
      if r =? 0 then []
      else (10 * r) / d :: frac_digits k' ((10 * r) mod d) d
  end.

Definition digit_char (d : Z) : ascii := ascii_of_N (48 + Z.to_N d).

Fixpoint digits_text (ds : list Z) : string :=
  match ds with
  | [] => EmptyString
  | d :: ds' => String (digit_char d) (digits_text ds')
  end.

(** The number the digits [ds] denote, most significant digit first. *)
Definition digits_value (ds : list Z) : Z :=
  fold_left (fun acc d => 10 * acc + d) ds 0.

Definition fraction_text (ds : list Z) : string :=
  match ds with
  | [] => EmptyString
  | _ => "." ++ digits_text ds
  end.

(** Decimal text of the quotient [a / d] of two naturals, [0 < d]. *)
Definition quotient_text (a d : Z) : string :=
  Num.decimal (a / d) ++ fraction_text (frac_digits 20 (a mod d) d).

(** Modelled from the spec: [String.prototype.format] belongs to the host
    framework and is missing from the source. The specification has the
    directive [%1024mB] "convert an integer count of bytes into binary
    megabytes (divide by 1024^2) and render with a unit suffix", with
    ["2 MB"] for 2097152 and ["0 MB"] for zero. The quotient is written in
    decimal, with at most twenty digits after the point, which is all of
    them for an integer count. *)
Definition megabytes (q : Q) : string :=
  (if Qnum q <? 0 then "-" else "")
  ++ quotient_text (Z.abs (Qnum q)) (Z.pos (Qden q) * MB) ++ " MB".

(** Modelled from the spec: "a non-numeric or missing input defaults to zero
    before formatting". *)
Definition format_1024mB (v : value) : string :=
  match v with
  | VNum q => megabytes q
  | _ => megabytes 0
  end.

(** Modelled from the spec: the directive [%s] of [String.prototype.format],
    missing from the source as well; the first [%s] of the template is
    replaced by the argument ("a generic failure message containing the raw
    text"). *)
Fixpoint format_s (template arg : string) : string :=
  match template with
  | EmptyString => EmptyString
  | String c rest =>
      match Str.strip_prefix "%s" template with
      | Some after => arg ++ after
      | None => String c (format_s rest arg)
      end
  end.

End Format.

(** ** The replies of the host's [fs] facility *)

(** What [fs.exec] resolves to. [stdout] is [None] when the reply has no such
    property; [message] is whatever the reply carries under that name. *)
Record exec_result : Type := {
  code : Z;
  stdout : option string;
  message : value
}.

(** What [fs.read] resolves to: the text of the file, or [None] for the
    failure indicator. *)
Definition read_result : Type := option string.

(** The test [r ? ... : ...] on a read result or an optional string: the
    failure indicator is falsy, and so is the empty text. *)
Definition truthy_text (r : option string) : bool :=
  match r with
  | Some s => Str.truthy s
  | None => false
  end.

(** [x || '-'] on an optional string. *)
Definition or_dash (x : option string) : string :=
  match x with
  | Some s => if Str.truthy s then s else "-"
  | None => "-"
  end.

(** ** The interface collector *)

Module InterfaceInfo.
Record t : Type := {
  name : string;
  rxBytes : string;
  txBytes : string;
  mtu : string;
  ipv4 : string;
  ipv6 : string
}.
End InterfaceInfo.

Definition ifname : string := "tailscale0".

(** [line.match(/^\s*MARKER\s+([CLASS]+)/)], the captured group. The three
    greedy runs are over disjoint sets of characters, so the match is the
    leftmost-longest one and no backtracking changes it. *)
Definition match_marker (marker : string) (class : ascii -> bool)
    (line : string) : option string :=
  match Str.strip_prefix marker (Str.drop_while Str.is_ws line) with
  | None => None
  | Some after =>
      if Str.truthy (Str.take_while Str.is_ws after) then
        let token := Str.take_while class (Str.drop_while Str.is_ws after) in
        if Str.truthy token then Some token else None
      else None
  end.

(** [/^\s*inet\s+([0-9.]+)/] *)
Definition ipv4Match : string -> option string :=
  match_marker "inet" Str.is_digit_dot.

(** [/^\s*inet6\s+([0-9a-fA-F:]+)/] *)
Definition ipv6Match : string -> option string :=
  match_marker "inet6" Str.is_hex_colon.

(** The two address properties of [parsedInfo] while the lines are scanned. *)
Record addresses : Type := {
  found_ipv4 : option string;
  found_ipv6 : option string
}.

Definition no_addresses : addresses :=
  {| found_ipv4 := None; found_ipv6 := None |}.

(** The body of the loop over the lines (source lines 41 to 50). *)
Definition scan_line (st : addresses) (line : string) : addresses :=
  let st1 :=
    match ipv4Match line with
    | Some token =>
        if negb (truthy_text (found_ipv4 st))
        then {| found_ipv4 := Some token; found_ipv6 := found_ipv6 st |}
        else st
    | None => st
    end in
  match ipv6Match line with
  | Some token =>
      if negb (truthy_text (found_ipv6 st1)) && negb (Str.startsWith token "fe80")
      then {| found_ipv4 := found_ipv4 st1; found_ipv6 := Some token |}
      else st1
  | None => st1
  end.

Definition scan_output (out : string) : addresses :=
  fold_left scan_line (Str.split Str.LF out) no_addresses.

(** [ipRes && ipRes.code === 0 && ipRes.stdout] and the loop it guards. *)
Definition scan_reply (ipRes : option exec_result) : addresses :=
  match ipRes with
  | Some r =>
      if (code r =? 0) && truthy_text (stdout r)
      then scan_output (match stdout r with Some out => out | None => "" end)
      else no_addresses
  | None => no_addresses
  end.

(** [!ipRes || ipRes.code !== 0] *)
Definition command_failed (ipRes : option exec_result) : bool :=
  match ipRes with
  | Some r => negb (code r =? 0)
  | None => true
  end.

(** [res ? '%1024mB'.format(parseInt(res.trim(), 10) || 0) : '-'] *)
Definition bytes_field (res : read_result) : string :=
  match res with
  | Some text =>
      if Str.truthy text
      then Format.format_1024mB
             (VNum (inject_Z (Num.or_zero (Num.parseInt (Str.trim text)))))
      else "-"
  | None => "-"
  end.

(** [mtuRes ? mtuRes.trim() : '-'] *)
Definition mtu_field (res : read_result) : string :=
  match res with
  | Some text => if Str.truthy text then Str.trim text else "-"
  | None => "-"
  end.

(** [loadInterfaceInfo] of the status view, on the four results the
    [Promise.all] resolves to. [None] is the [null] it returns. *)
Definition loadInterfaceInfo (rxRes txRes mtuRes : read_result)
    (ipRes : option exec_result) : option InterfaceInfo.t :=
  if negb (truthy_text rxRes) && negb (truthy_text mtuRes)
     && command_failed ipRes
  then None
  else
    let found := scan_reply ipRes in
    Some {| InterfaceInfo.name := ifname;
            InterfaceInfo.rxBytes := bytes_field rxRes;
            InterfaceInfo.txBytes := bytes_field txRes;
            InterfaceInfo.mtu := mtu_field mtuRes;
            InterfaceInfo.ipv4 := or_dash (found_ipv4 found);
            InterfaceInfo.ipv6 := or_dash (found_ipv6 found) |}.

(** [load] of the interface view ([interface.js]): the same statements,
    returning an array with no element or with the one record. *)
Module InterfaceView.
Definition load (rxRes txRes mtuRes : read_result)
    (ipRes : option exec_result) : list InterfaceInfo.t :=
  match loadInterfaceInfo rxRes txRes mtuRes ipRes with
  | None => []
  | Some info => [info]
  end.
End InterfaceView.

(** ** The peer-status collector *)

Module PeerSummary.
Record t : Type := {
  ip : value;
  hostname : value;
  online : value;
  relay : value;
  direct : bool;
  rxBytes : string;
  txBytes : string
}.
End PeerSummary.

(** The object [loadPeerStatus] returns: [{ error: ... }] or
    [{ peers: [...] }]. *)
Inductive peer_status : Type :=
  | StatusError (error : string)
  | StatusPeers (peers : list PeerSummary.t).

(** How the promise of [fs.exec('tailscale', ...)] settles: resolved with a
    reply object; resolved with [null], the reply without an object that
    the interface collector tests for with [!ipRes]; or rejected with an
    error object whose [message] property is the given value. *)
Inductive exec_outcome : Type :=
  | Resolved (reply : exec_result)
  | ResolvedNull
  | Rejected (err_message : value).

(** How a promise of [fs.read] or [fs.exec] settles for a caller that has no
    [catch]: fulfilled with a value, or rejected with an error of the given
    message. *)
Inductive settlement (A : Type) : Type :=
  | Fulfilled (a : A)
  | Failed (reason : string).
Arguments Fulfilled {A} a.
Arguments Failed {A} reason.

Definition MSG_EXEC_FAILED : string := "Failed to execute tailscale command".
Definition MSG_COMMAND_FAILED : string := "Command failed".
Definition MSG_PERMISSION : string :=
  "Permission denied: Ensure LuCI has access to run " ++
  String (ascii_of_N 34) ("tailscale status" ++ String (ascii_of_N 34) ".").
Definition MSG_NOT_RUNNING : string := "Tailscale service is not running.".
Definition MSG_UNABLE : string := "Unable to get Tailscale status: %s".
Definition MSG_EMPTY : string := "Tailscale status returned empty output.".
Definition MSG_PARSE : string := "Error parsing Tailscale status: %s".

(** [.catch(err => ({ code: 1, message: err.message || '...' }))]: what
    [statusRes] is after the [await]; [None] is [null]. *)
Definition settle (outcome : exec_outcome) : option exec_result :=
  match outcome with
  | Resolved reply => Some reply
  | ResolvedNull => None
  | Rejected err_message =>
      Some {| code := 1;
              stdout := None;
              message := Js.or err_message (VStr MSG_EXEC_FAILED) |}
  end.

(** [await] on a promise outside any [try]: the value, or the rejection
    thrown on. *)
Definition awaited {A : Type} (p : settlement A) : Js.completion A :=
  match p with
  | Fulfilled a => Js.Normal a
  | Failed reason => Js.Throw reason
  end.

(** [typeof statusRes.message === 'string' ? statusRes.message : '...'] *)
Definition message_text (reply : exec_result) : string :=
  match message reply with
  | VStr m => m
  | _ => MSG_COMMAND_FAILED
  end.

Notation "x <- c ;; k" := (Js.bind c (fun x => k))
  (at level 61, c at next level, right associativity).

(** [peer.DNSName ? peer.DNSName.split('.')[0] : (peer.HostName || '-')] *)
Definition hostname_of (peer : value) : Js.completion value :=
  dns <- Js.get peer "DNSName" ;;
  if Js.truthy dns then
    match dns with
    | VStr s => Js.Normal (VStr (hd EmptyString (Str.split "." s)))
    | _ => Js.Throw "peer.DNSName.split is not a function"
    end
  else
    host <- Js.get peer "HostName" ;;
    Js.Normal (Js.or host (VStr "-")).

(** [raw ? '%1024mB'.format(raw) : '-'] *)
Definition counter_field (raw : value) : string :=
  if Js.truthy raw then Format.format_1024mB raw else "-".

(** The body of the loop over the peers (source lines 86 to 97). *)
Definition summarise (peer : value) : Js.completion PeerSummary.t :=
  hostname <- hostname_of peer ;;
  ips <- Js.get peer "TailscaleIPs" ;;
  online <- Js.get peer "Online" ;;
  relay <- Js.get peer "Relay" ;;
  curAddr <- Js.get peer "CurAddr" ;;
  rx <- Js.get peer "RxBytes" ;;
  tx <- Js.get peer "TxBytes" ;;
  Js.Normal {| PeerSummary.ip := Js.or (Js.first ips) (VStr "-");
               PeerSummary.hostname := hostname;
               PeerSummary.online := online;
               PeerSummary.relay := Js.or relay (VStr "-");
               PeerSummary.direct := Js.truthy curAddr;
               PeerSummary.rxBytes := counter_field rx;
               PeerSummary.txBytes := counter_field tx |}.

(** The loop: the summaries are pushed in order, and the first error thrown
    leaves the loop. *)
Fixpoint summarise_all (peers : list value) : Js.completion (list PeerSummary.t) :=
  match peers with
  | [] => Js.Normal []
  | peer :: rest =>
      summary <- summarise peer ;;
      summaries <- summarise_all rest ;;
      Js.Normal (summary :: summaries)
  end.

(** What the [try] block does with the parsed document
    (source lines 82 to 100). *)
Definition peers_of_document (statusJson : value) : Js.completion (list PeerSummary.t) :=
  peer <- Js.get statusJson "Peer" ;;
  entries <- Js.values (Js.or peer (VObj [])) ;;
  summarise_all entries.

Record load_result : Type := {
  interfaceInfo : option InterfaceInfo.t;
  peerStatus : peer_status
}.

Section Collector.

(** The translation function [_] of the host framework. *)
Variable gettext : string -> string.

(** [JSON.parse]: the value the text denotes, or the SyntaxError thrown. *)
Variable JSON_parse : string -> Js.completion value.

(** The [if (statusRes.code !== 0)] block (source lines 66 to 74). *)
Definition classify (message : string) : peer_status :=
  if Str.includes message "Permission" then
    StatusError (gettext MSG_PERMISSION)
  else if Str.includes message "not running" || Str.includes message "stopped" then
    StatusError (gettext MSG_NOT_RUNNING)
  else
    StatusError (Format.format_s (gettext MSG_UNABLE) message).

(** [!statusRes.stdout || statusRes.stdout.trim() === ''] *)
Definition blank_output (reply : exec_result) : bool :=
  match stdout reply with
  | Some out => negb (Str.truthy out) || String.eqb (Str.trim out) ""
  | None => true
  end.

(** The [try ... catch] statement (source lines 80 to 103). *)
Definition parse_status (out : string) : peer_status :=
  match (statusJson <- JSON_parse out ;; peers_of_document statusJson) with
  | Js.Normal peerList => StatusPeers peerList
  | Js.Throw e_message =>
      StatusError (Format.format_s (gettext MSG_PARSE) e_message)
  end.

(** [loadPeerStatus], on the way the promise of [fs.exec] settles. The
    result is the completion of the function: a returned object, or an error
    thrown past it. The read [statusRes.code] of line 66 stands outside the
    [try]: on [null] its TypeError leaves the function. *)
Definition loadPeerStatus (outcome : exec_outcome) : Js.completion peer_status :=
  match settle outcome with
  | None => Js.Throw "Cannot read properties of null (reading 'code')"
  | Some statusRes =>
      if negb (code statusRes =? 0) then
        Js.Normal (classify (message_text statusRes))
      else if blank_output statusRes then
        Js.Normal (StatusError (gettext MSG_EMPTY))
      else
        Js.Normal
          (parse_status
             (match stdout statusRes with Some out => out | None => "" end))
  end.

(** [loadInterfaceInfo] with its [await Promise.all] (source lines 20 to
    25), on the way the four promises settle. There is no [catch]: a
    rejected promise rejects the function. When several are rejected the
    model reports the first of them in the order of the array. *)
Definition loadInterfaceInfo_async (rxP txP mtuP : settlement read_result)
    (ipP : settlement (option exec_result))
    : Js.completion (option InterfaceInfo.t) :=
  rxRes <- awaited rxP ;;
  txRes <- awaited txP ;;
  mtuRes <- awaited mtuP ;;
  ipRes <- awaited ipP ;;
  Js.Normal (loadInterfaceInfo rxRes txRes mtuRes ipRes).

(** [load] of the status view: both collectors, joined by [Promise.all],
    which rejects when one of them does. When both do, the model reports
    the rejection of the interface collector. *)
Definition load (rxP txP mtuP : settlement read_result)
    (ipP : settlement (option exec_result)) (outcome : exec_outcome)
    : Js.completion load_result :=
  info <- loadInterfaceInfo_async rxP txP mtuP ipP ;;
  status <- loadPeerStatus outcome ;;
  Js.Normal {| interfaceInfo := info; peerStatus := status |}.

End Collector.

(** ** [JSON.parse]

    [JSON.parse] is a built-in of the language: the collector above takes it
    as a parameter, and this module is the instance the examples run on. A
    scanner turns the text into tokens, one character at a time, and a
    pushdown parser reads the tokens. Both are folds, so they are total.
    The messages of the errors thrown are representative: the engines differ
    in them. An escape [\uXXXX] of a code unit above 255 has no character in
    the strings of the model; the scanner refuses it where the built-in
    accepts it, and no statement below is evaluated on such a text. *)

Module Json.

Inductive token : Type :=
  | TLBrace | TRBrace | TLBracket | TRBracket | TColon | TComma
  | TString (s : string)
  | TNumber (q : Q)
  | TTrue | TFalse | TNull.

(** *** Numbers *)

(** The digits that must follow in a number: at least one. *)
Definition digits1 (s : string) : option (Decimal.uint * string) :=
  match Num.take_digits s with
  | (Decimal.Nil, _) => None
  | found => Some found
  end.

(** The integer part: ["0"], or digits that do not start with a zero. *)
Definition int_part (s : string) : option (Decimal.uint * string) :=
  match s with
  | String "0" rest =>
      match rest with
      | String c _ => if Str.is_digit c then None else Some (Decimal.D0 Decimal.Nil, rest)
      | EmptyString => Some (Decimal.D0 Decimal.Nil, rest)
      end
  | _ => digits1 s
  end.

(** The optional fraction: its digits (none when there is no fraction). *)
Definition frac_part (s : string) : option (Decimal.uint * string) :=
  match s with
  | String "." rest => digits1 rest
  | _ => Some (Decimal.Nil, s)
  end.

(** The optional exponent. *)
Definition exp_part (s : string) : option (Z * string) :=
  match s with
  | String c rest =>
      if Ascii.eqb c "e" || Ascii.eqb c "E" then
        let (neg, body) :=
          match rest with
          | String "-" r => (true, r)
          | String "+" r => (false, r)
          | _ => (false, rest)
          end in
        match digits1 body with
        | Some (u, tail) =>
            let e := Z.of_N (N.of_uint u) in Some (if neg then - e else e, tail)
        | None => None
        end
      else Some (0, s)
  | EmptyString => Some (0, s)
  end.

Definition uint_value (u : Decimal.uint) : Z := Z.of_N (N.of_uint u).

(** The value of the number literal [text]:
    [-? int (. digits)? ([eE] [+-]? digits)?]. *)
Definition number_of_text (text : string) : option Q :=
  let (neg, body) :=
    match text with
    | String "-" r => (true, r)
    | _ => (false, text)
    end in
  match int_part body with
  | None => None
  | Some (i, s1) =>
      match frac_part s1 with
      | None => None
      | Some (f, s2) =>
          match exp_part s2 with
          | Some (e, EmptyString) =>
              let scale := 10 ^ Z.of_nat (Decimal.nb_digits f) in
              let mantissa := uint_value i * scale + uint_value f in
              let q := (inject_Z mantissa / inject_Z scale * Qpower (inject_Z 10) e)%Q in
              Some (Qred (if neg then Qopp q else q))
          | _ => None
          end
      end
  end.

(** *** The scanner *)

Inductive mode : Type :=
  | MDefault
  | MString (acc : string)
  | MEscape (acc : string)
  | MUnicode (acc : string) (digits : list N)
  | MNumber (acc : string)
  | MWord (acc : string).

Definition snoc (s : string) (c : ascii) : string := s ++ String c EmptyString.

Definition is_json_ws (c : ascii) : bool :=
  match N_of_ascii c with
  | 9%N | 10%N | 13%N | 32%N => true
  | _ => false
  end.

Definition is_number_char (c : ascii) : bool :=
  Str.is_digit c || Ascii.eqb c "-" || Ascii.eqb c "+" || Ascii.eqb c "."
  || Ascii.eqb c "e" || Ascii.eqb c "E".

Definition is_letter (c : ascii) : bool :=
  let n := N_of_ascii c in ((97 <=? n) && (n <=? 122))%N.

Definition hex_value (c : ascii) : option N :=
  let n := N_of_ascii c in
  if Str.is_digit c then Some (n - 48)%N
  else if ((97 <=? n) && (n <=? 102))%N then Some (n - 87)%N
  else if ((65 <=? n) && (n <=? 70))%N then Some (n - 55)%N
  else None.

Definition unexpected (c : ascii) : string :=
  "Unexpected token '" ++ String c "' is not valid JSON".

Definition word_token (w : string) : Js.completion token :=
  if String.eqb w "true" then Js.Normal TTrue
  else if String.eqb w "false" then Js.Normal TFalse
  else if String.eqb w "null" then Js.Normal TNull
  else Js.Throw ("Unexpected token '" ++ w ++ "' is not valid JSON").

Definition number_token (text : string) : Js.completion token :=
  match number_of_text text with
  | Some q => Js.Normal (TNumber q)
  | None => Js.Throw ("Unexpected number '" ++ text ++ "' in JSON")
  end.

(** A character met between tokens. *)
Definition start (c : ascii) : Js.completion (mode * list token) :=
  if is_json_ws c then Js.Normal (MDefault, [])
  else if Ascii.eqb c "{" then Js.Normal (MDefault, [TLBrace])
  else if Ascii.eqb c "}" then Js.Normal (MDefault, [TRBrace])
  else if Ascii.eqb c "[" then Js.Normal (MDefault, [TLBracket])
  else if Ascii.eqb c "]" then Js.Normal (MDefault, [TRBracket])
  else if Ascii.eqb c ":" then Js.Normal (MDefault, [TColon])
  else if Ascii.eqb c "," then Js.Normal (MDefault, [TComma])
  else if Ascii.eqb c (ascii_of_N 34) then Js.Normal (MString EmptyString, [])
  else if Str.is_digit c || Ascii.eqb c "-" then
    Js.Normal (MNumber (String c EmptyString), [])
  else if is_letter c then Js.Normal (MWord (String c EmptyString), [])
  else Js.Throw (unexpected c).

(** The character an escape sequence of two characters denotes. *)
Definition escaped (c : ascii) : option ascii :=
  if Ascii.eqb c (ascii_of_N 34) then Some c
  else if Ascii.eqb c (ascii_of_N 92) then Some c
  else if Ascii.eqb c "/" then Some c
  else if Ascii.eqb c "b" then Some (ascii_of_N 8)
  else if Ascii.eqb c "f" then Some (ascii_of_N 12)
  else if Ascii.eqb c "n" then Some (ascii_of_N 10)
  else if Ascii.eqb c "r" then Some (ascii_of_N 13)
  else if Ascii.eqb c "t" then Some (ascii_of_N 9)
  else None.

(** One character of the text: the mode that follows and the tokens that
    end with this character. A code unit above 255, which only an escape
    [\uXXXX] can denote, is outside the strings of the model. *)
Definition scan (m : mode) (c : ascii) : Js.completion (mode * list token) :=
  match m with
  | MDefault => start c
  | MString acc =>
      if Ascii.eqb c (ascii_of_N 34) then Js.Normal (MDefault, [TString acc])
      else if Ascii.eqb c (ascii_of_N 92) then Js.Normal (MEscape acc, [])
      else if (N_of_ascii c <? 32)%N then
        Js.Throw "Bad control character in string literal in JSON"
      else Js.Normal (MString (snoc acc c), [])
  | MEscape acc =>
      if Ascii.eqb c "u" then Js.Normal (MUnicode acc [], [])
      else match escaped c with
           | Some d => Js.Normal (MString (snoc acc d), [])
           | None => Js.Throw "Bad escaped character in JSON"
           end
  | MUnicode acc digits =>
      match hex_value c with
      | None => Js.Throw "Bad Unicode escape in JSON"
      | Some h =>
          match digits with
          | [a; b; d] =>
              let unit := (((a * 16 + b) * 16 + d) * 16 + h)%N in
              if (unit <? 256)%N
              then Js.Normal (MString (snoc acc (ascii_of_N unit)), [])
              else Js.Throw "code unit above 255"
          | _ => Js.Normal (MUnicode acc (digits ++ [h]), [])
          end
      end
  | MNumber acc =>
      if is_number_char c then Js.Normal (MNumber (snoc acc c), [])
      else
        tok <- number_token acc ;;
        next <- start c ;;
        Js.Normal (fst next, tok :: snd next)
  | MWord acc =>
      if is_letter c then Js.Normal (MWord (snoc acc c), [])
      else
        tok <- word_token acc ;;
        next <- start c ;;
        Js.Normal (fst next, tok :: snd next)
  end.

(** The end of the text. *)
Definition finish (m : mode) : Js.completion (list token) :=
  match m with
  | MDefault => Js.Normal []
  | MString _ | MEscape _ | MUnicode _ _ =>
      Js.Throw "Unterminated string in JSON"
  | MNumber acc => tok <- number_token acc ;; Js.Normal [tok]
  | MWord acc => tok <- word_token acc ;; Js.Normal [tok]
  end.

Fixpoint tokens_from (m : mode) (text : string) : Js.completion (list token) :=
  match text with
  | EmptyString => finish m
  | String c rest =>
      step <- scan m c ;;
      more <- tokens_from (fst step) rest ;;
      Js.Normal (snd step ++ more)%list
  end.

Definition tokenize (text : string) : Js.completion (list token) :=
  tokens_from MDefault text.

(** *** The parser *)

(** The canonical array index a property name denotes, if it does: such
    properties are enumerated first, in ascending order. *)
Definition array_index (k : string) : option N :=
  match Num.take_digits k with
  | (Decimal.Nil, _) => None
  | (u, EmptyString) =>
      let i := N.of_uint u in
      if String.eqb (NilEmpty.string_of_uint (N.to_uint i)) k && (i <? 4294967295)%N
      then Some i else None
  | _ => None
  end.

Fixpoint replace (k : string) (v : value) (props : list (string * value))
    : list (string * value) :=
  match props with
  | [] => []
  | (k', v') :: rest =>
      if String.eqb k k' then (k', v) :: rest else (k', v') :: replace k v rest
  end.

(** A new property named by the array index [i]: after the smaller indices. *)
Fixpoint insert_index (i : N) (k : string) (v : value)
    (props : list (string * value)) : list (string * value) :=
  match props with
  | [] => [(k, v)]
  | (k', v') :: rest =>
      match array_index k' with
      | Some j =>
          if (j <? i)%N then (k', v') :: insert_index i k v rest
          else (k, v) :: props
      | None => (k, v) :: props
      end
  end.

(** The property definition [object[k] = v] of the parser, keeping the
    properties in enumeration order: a name already there keeps its place
    and takes the new value; a new array index goes among the indices; any
    other new name goes last. *)
Definition define (props : list (string * value)) (k : string) (v : value)
    : list (string * value) :=
  match Js.assoc k props with
  | Some _ => replace k v props
  | None =>
      match array_index k with
      | Some i => insert_index i k v props
      | None => (props ++ [(k, v)])%list
      end
  end.

(** An array or an object under construction: the elements so far, or the
    properties so far and the name whose value is awaited. *)
Inductive frame : Type :=
  | FArray (items : list value)
  | FObject (props : list (string * value)) (key : string).

Inductive state : Type :=
  | SValue (stack : list frame)
  | SArrayStart (stack : list frame)
  | SArrayNext (items : list value) (stack : list frame)
  | SObjectStart (stack : list frame)
  | SKey (props : list (string * value)) (stack : list frame)
  | SColon (props : list (string * value)) (key : string) (stack : list frame)
  | SObjectNext (props : list (string * value)) (stack : list frame)
  | SDone (v : value).

(** A value is complete: it is the document, or it goes into the innermost
    array or object under construction. *)
Definition complete (v : value) (stack : list frame) : state :=
  match stack with
  | [] => SDone v
  | FArray items :: outer => SArrayNext (items ++ [v]) outer
  | FObject props key :: outer => SObjectNext (define props key v) outer
  end.

Definition token_error : Js.completion state :=
  Js.Throw "Unexpected token in JSON".

(** The first token of a value. *)
Definition begin_value (t : token) (stack : list frame) : Js.completion state :=
  match t with
  | TLBracket => Js.Normal (SArrayStart stack)
  | TLBrace => Js.Normal (SObjectStart stack)
  | TString s => Js.Normal (complete (VStr s) stack)
  | TNumber q => Js.Normal (complete (VNum q) stack)
  | TTrue => Js.Normal (complete (VBool true) stack)
  | TFalse => Js.Normal (complete (VBool false) stack)
  | TNull => Js.Normal (complete VNull stack)
  | TRBrace | TRBracket | TColon | TComma => token_error
  end.

Definition step (st : state) (t : token) : Js.completion state :=
  match st, t with
  | SValue stack, _ => begin_value t stack
  | SArrayStart stack, TRBracket => Js.Normal (complete (VArr []) stack)
  | SArrayStart stack, _ => begin_value t (FArray [] :: stack)
  | SArrayNext items stack, TComma => Js.Normal (SValue (FArray items :: stack))
  | SArrayNext items stack, TRBracket => Js.Normal (complete (VArr items) stack)
  | SObjectStart stack, TRBrace => Js.Normal (complete (VObj []) stack)
  | SObjectStart stack, TString k => Js.Normal (SColon [] k stack)
  | SKey props stack, TString k => Js.Normal (SColon props k stack)
  | SColon props k stack, TColon => Js.Normal (SValue (FObject props k :: stack))
  | SObjectNext props stack, TComma => Js.Normal (SKey props stack)
  | SObjectNext props stack, TRBrace => Js.Normal (complete (VObj props) stack)
  | _, _ => token_error
  end.

Fixpoint run (st : state) (ts : list token) : Js.completion value :=
  match ts with
  | [] =>
      match st with
      | SDone v => Js.Normal v
      | _ => Js.Throw "Unexpected end of JSON input"
      end
  | t :: rest => st' <- step st t ;; run st' rest
  end.

(** [JSON.parse(text)]. *)
Definition parse (text : string) : Js.completion value :=
  ts <- tokenize text ;; run (SValue []) ts.

End Json.

(** * Properties *)

(** ** Facts about strings *)

Module StrFacts.

(** The next character of [s] is in the class [p]. *)
Definition starts (p : ascii -> bool) (s : string) : bool :=
  match s with
  | String c _ => p c
  | EmptyString => false
  end.

Lemma app_assoc (a b c : string) : (a ++ b) ++ c = a ++ (b ++ c).
Proof. induction a as [|x a IH]; simpl; [reflexivity | now rewrite IH]. Qed.

Lemma app_nil_r (a : string) : a ++ "" = a.
Proof. induction a as [|x a IH]; simpl; [reflexivity | now rewrite IH]. Qed.

Lemma truthy_false (s : string) : Str.truthy s = false <-> s = "".
Proof. destruct s; simpl; split; congruence. Qed.

Lemma truthy_true (s : string) : Str.truthy s = true <-> s <> "".
Proof. destruct s; simpl; split; congruence. Qed.

Lemma take_drop (p : ascii -> bool) (s : string) :
  s = Str.take_while p s ++ Str.drop_while p s.
Proof.
  induction s as [|c s IH]; simpl; [reflexivity|].
  destruct (p c); simpl; [now rewrite <- IH | reflexivity].
Qed.

Lemma all_take_while (p : ascii -> bool) (s : string) :
  Str.all p (Str.take_while p s) = true.
Proof.
  induction s as [|c s IH]; simpl; [reflexivity|].
  destruct (p c) eqn:E; simpl; [now rewrite E | reflexivity].
Qed.

Lemma starts_drop_while (p : ascii -> bool) (s : string) :
  starts p (Str.drop_while p s) = false.
Proof.
  induction s as [|c s IH]; simpl; [reflexivity|].
  destruct (p c) eqn:E; simpl; assumption.
Qed.

Lemma take_while_app (p : ascii -> bool) (a b : string) :
  Str.all p a = true -> starts p b = false ->
  Str.take_while p (a ++ b) = a.
Proof.
  intros Ha Hb. induction a as [|c a IH]; simpl in *.
  - destruct b as [|d b]; simpl in *; [reflexivity | now rewrite Hb].
  - apply andb_true_iff in Ha as [Hc Ha]. rewrite Hc. now rewrite IH.
Qed.

Lemma drop_while_app (p : ascii -> bool) (a b : string) :
  Str.all p a = true -> starts p b = false ->
  Str.drop_while p (a ++ b) = b.
Proof.
  intros Ha Hb. induction a as [|c a IH]; simpl in *.
  - destruct b as [|d b]; simpl in *; [reflexivity | now rewrite Hb].
  - apply andb_true_iff in Ha as [Hc Ha]. rewrite Hc. now apply IH.
Qed.

Lemma drop_while_all (p : ascii -> bool) (s : string) :
  Str.all p s = true -> Str.drop_while p s = "".
Proof.
  intros H. rewrite <- (app_nil_r s). now apply drop_while_app.
Qed.

Lemma strip_prefix_app (lit s : string) : Str.strip_prefix lit (lit ++ s) = Some s.
Proof.
  induction lit as [|a lit IH]; simpl; [reflexivity|].
  now rewrite Ascii.eqb_refl.
Qed.

Lemma strip_prefix_inv (lit s rest : string) :
  Str.strip_prefix lit s = Some rest -> s = lit ++ rest.
Proof.
  revert s. induction lit as [|a lit IH]; intros s H; simpl in *.
  - congruence.
  - destruct s as [|c s]; [discriminate|].
    destruct (Ascii.eqb a c) eqn:E; [|discriminate].
    apply Ascii.eqb_eq in E. subst c. simpl. f_equal. now apply IH.
Qed.

Lemma startsWith_app (lit s : string) : Str.startsWith (lit ++ s) lit = true.
Proof. unfold Str.startsWith. now rewrite strip_prefix_app. Qed.

Lemma includes_startsWith (s lit : string) :
  Str.startsWith s lit = true -> Str.includes s lit = true.
Proof. intros H. destruct s; simpl; rewrite H; reflexivity. Qed.

(** A string is found in every text it is a part of. *)
Lemma includes_app (pre m post : string) : Str.includes (pre ++ m ++ post) m = true.
Proof.
  induction pre as [|c pre IH]; simpl.
  - apply includes_startsWith, startsWith_app.
  - rewrite IH. apply orb_true_r.
Qed.

(** Trimming a text of white space only leaves nothing. *)
Lemma trim_blank (s : string) : Str.all Str.is_ws s = true -> Str.trim s = "".
Proof.
  intros H. unfold Str.trim, Str.trimStart. now rewrite drop_while_all.
Qed.

(** [trimEnd] does not touch a prefix without white space. *)
Lemma trimEnd_app (a b : string) :
  Str.all (fun c => negb (Str.is_ws c)) a = true ->
  Str.trimEnd (a ++ b) = a ++ Str.trimEnd b.
Proof.
  intros Ha. induction a as [|c a IH]; simpl in *; [reflexivity|].
  apply andb_true_iff in Ha as [Hc Ha]. rewrite (IH Ha).
  apply negb_true_iff in Hc. rewrite Hc.
  destruct (a ++ Str.trimEnd b); reflexivity.
Qed.

Lemma starts_trimEnd (p : ascii -> bool) (s : string) :
  starts p s = false -> starts p (Str.trimEnd s) = false.
Proof.
  destruct s as [|c s]; simpl; [reflexivity|]. intros H.
  destruct (Str.trimEnd s); [destruct (Str.is_ws c)|]; simpl; auto.
Qed.

End StrFacts.

(** ** The address lines *)

Module Scan.

Import StrFacts.

(** The shape of a line that [match_marker] accepts, with the token it
    captures: indentation, the marker, a gap of white space, the token (the
    longest run of the class), and the rest. *)
Definition shaped (marker : string) (class : ascii -> bool)
    (line token : string) : Prop :=
  exists indent gap rest,
    line = indent ++ marker ++ gap ++ token ++ rest /\
    Str.all Str.is_ws indent = true /\
    Str.all Str.is_ws gap = true /\ gap <> "" /\
    Str.all class token = true /\ token <> "" /\
    starts class rest = false.

Lemma match_marker_sound marker class line token :
  match_marker marker class line = Some token -> shaped marker class line token.
Proof.
  unfold match_marker. intros H.
  destruct (Str.strip_prefix marker (Str.drop_while Str.is_ws line))
    as [after|] eqn:Hstrip; [|discriminate].
  destruct (Str.truthy (Str.take_while Str.is_ws after)) eqn:Hgap; [|discriminate].
  destruct (Str.truthy (Str.take_while class (Str.drop_while Str.is_ws after)))
    eqn:Htok; [|discriminate].
  injection H as <-.
  exists (Str.take_while Str.is_ws line), (Str.take_while Str.is_ws after),
    (Str.drop_while class (Str.drop_while Str.is_ws after)).
  repeat split.
  - rewrite <- take_drop, <- take_drop.
    rewrite <- (strip_prefix_inv _ _ _ Hstrip). apply take_drop.
  - apply all_take_while.
  - apply all_take_while.
  - now apply truthy_true.
  - apply all_take_while.
  - now apply truthy_true.
  - apply starts_drop_while.
Qed.

Lemma starts_app_nonempty p (a b : string) :
  a <> "" -> starts p (a ++ b) = starts p a.
Proof. destruct a; simpl; congruence. Qed.

Lemma starts_all_disjoint (p q : ascii -> bool) (a : string) :
  (forall c, q c = true -> p c = false) ->
  Str.all q a = true -> starts p a = false.
Proof.
  intros D H. destruct a as [|c a]; simpl in *; [reflexivity|].
  apply andb_true_iff in H as [H _]. now apply D.
Qed.

Lemma match_marker_complete marker class line token :
  starts Str.is_ws marker = false -> marker <> "" ->
  (forall c, class c = true -> Str.is_ws c = false) ->
  shaped marker class line token ->
  match_marker marker class line = Some token.
Proof.
  intros Hm Hne Hdisj (indent & gap & rest & -> & Hi & Hg & Hgne & Ht & Htne & Hr).
  unfold match_marker.
  rewrite drop_while_app; [|assumption|now rewrite starts_app_nonempty].
  rewrite strip_prefix_app.
  assert (Hs : starts Str.is_ws (token ++ rest) = false).
  { rewrite starts_app_nonempty by assumption.
    now apply starts_all_disjoint with (q := class). }
  rewrite take_while_app by assumption.
  rewrite drop_while_app by assumption.
  rewrite take_while_app by assumption.
  apply truthy_true in Hgne, Htne. now rewrite Hgne, Htne.
Qed.

Lemma digit_dot_not_ws c : Str.is_digit_dot c = true -> Str.is_ws c = false.
Proof.
  destruct c as [[] [] [] [] [] [] [] []]; vm_compute; congruence.
Qed.

Lemma hex_colon_not_ws c : Str.is_hex_colon c = true -> Str.is_ws c = false.
Proof.
  destruct c as [[] [] [] [] [] [] [] []]; vm_compute; congruence.
Qed.

(** [/^\s*inet\s+([0-9.]+)/] accepts exactly the lines of that shape. *)
Lemma ipv4Match_shaped line token :
  ipv4Match line = Some token <-> shaped "inet" Str.is_digit_dot line token.
Proof.
  split; [apply match_marker_sound|].
  apply match_marker_complete;
    [reflexivity | discriminate | apply digit_dot_not_ws].
Qed.

(** [/^\s*inet6\s+([0-9a-fA-F:]+)/] accepts exactly the lines of that shape. *)
Lemma ipv6Match_shaped line token :
  ipv6Match line = Some token <-> shaped "inet6" Str.is_hex_colon line token.
Proof.
  split; [apply match_marker_sound|].
  apply match_marker_complete;
    [reflexivity | discriminate | apply hex_colon_not_ws].
Qed.

Lemma match_marker_truthy marker class line token :
  match_marker marker class line = Some token -> Str.truthy token = true.
Proof.
  intros H. apply match_marker_sound in H.
  destruct H as (_ & _ & _ & _ & _ & _ & _ & _ & H & _). now apply truthy_true.
Qed.

(** The first line, in order, on which [f] yields a token. *)
Fixpoint first_some (f : string -> option string) (lines : list string)
    : option string :=
  match lines with
  | [] => None
  | line :: rest =>
      match f line with
      | Some token => Some token
      | None => first_some f rest
      end
  end.

(** The IPv6 token of a line, unless it starts with [fe80]. *)
Definition global6 (line : string) : option string :=
  match ipv6Match line with
  | Some token => if Str.startsWith token "fe80" then None else Some token
  | None => None
  end.

Lemma first_some_none f lines :
  (forall l, In l lines -> f l = None) -> first_some f lines = None.
Proof.
  induction lines as [|l lines IH]; intros H; simpl; [reflexivity|].
  rewrite (H l) by now left. apply IH. intros; apply H; now right.
Qed.

Lemma first_some_first f before line after token :
  (forall l, In l before -> f l = None) -> f line = Some token ->
  first_some f (before ++ line :: after)%list = Some token.
Proof.
  intros Hb Hl. induction before as [|b before IH]; simpl.
  - now rewrite Hl.
  - rewrite (Hb b) by now left. apply IH. intros; apply Hb; now right.
Qed.

Lemma first_some_truthy f lines token :
  (forall l t, f l = Some t -> Str.truthy t = true) ->
  first_some f lines = Some token -> Str.truthy token = true.
Proof.
  intros Hf. induction lines as [|l lines IH]; simpl; [discriminate|].
  destruct (f l) eqn:E; [|assumption]. intros [= <-]. eauto.
Qed.

Lemma global6_truthy l t : global6 l = Some t -> Str.truthy t = true.
Proof.
  unfold global6. destruct (ipv6Match l) as [t'|] eqn:E; [|discriminate].
  destruct (Str.startsWith t' "fe80"); [discriminate|]. intros [= <-].
  eapply match_marker_truthy, E.
Qed.

(** The addresses held after the loop, from any state without addresses
    of empty text: what was held stays, what was missing is the first
    token found. *)
Definition settled (x : option string) : Prop :=
  forall t, x = Some t -> Str.truthy t = true.

Definition keep_or (x found : option string) : option string :=
  match x with
  | Some _ => x
  | None => found
  end.

Lemma truthy_text_settled x :
  settled x -> truthy_text x = match x with Some _ => true | None => false end.
Proof. intros H. destruct x as [t|]; simpl; [now apply H | reflexivity]. Qed.

Lemma scan_line_spec st line :
  settled (found_ipv4 st) -> settled (found_ipv6 st) ->
  found_ipv4 (scan_line st line) = keep_or (found_ipv4 st) (ipv4Match line) /\
  found_ipv6 (scan_line st line) = keep_or (found_ipv6 st) (global6 line).
Proof.
  intros H4 H6. unfold scan_line, global6.
  rewrite (truthy_text_settled _ H4).
  destruct st as [x4 x6]; simpl in *.
  destruct (ipv4Match line) as [t4|]; destruct x4 as [a4|]; simpl;
    rewrite (truthy_text_settled _ H6);
    destruct (ipv6Match line) as [t6|]; destruct x6 as [a6|]; simpl;
    try destruct (Str.startsWith t6 "fe80"); simpl; split; reflexivity.
Qed.

Lemma settled_keep_or x found :
  settled x -> settled found -> settled (keep_or x found).
Proof. destruct x; simpl; auto. Qed.

Lemma keep_or_assoc x a b :
  keep_or (keep_or x a) b = keep_or x (match a with Some _ => a | None => b end).
Proof. destruct x, a; reflexivity. Qed.

Lemma scan_lines lines : forall st,
  settled (found_ipv4 st) -> settled (found_ipv6 st) ->
  found_ipv4 (fold_left scan_line lines st)
    = keep_or (found_ipv4 st) (first_some ipv4Match lines) /\
  found_ipv6 (fold_left scan_line lines st)
    = keep_or (found_ipv6 st) (first_some global6 lines).
Proof.
  induction lines as [|line lines IH]; intros st H4 H6; simpl.
  - destruct (found_ipv4 st), (found_ipv6 st); auto.
  - destruct (scan_line_spec st line H4 H6) as [E4 E6].
    destruct (IH (scan_line st line)) as [-> ->].
    + rewrite E4. apply settled_keep_or; [assumption|].
      intros t. apply match_marker_truthy.
    + rewrite E6. apply settled_keep_or; [assumption|].
      intros t. apply global6_truthy.
    + rewrite E4, E6, !keep_or_assoc.
      destruct (ipv4Match line), (global6 line); split; reflexivity.
Qed.

Lemma scan_output_spec out :
  found_ipv4 (scan_output out) = first_some ipv4Match (Str.split Str.LF out) /\
  found_ipv6 (scan_output out) = first_some global6 (Str.split Str.LF out).
Proof.
  unfold scan_output.
  destruct (scan_lines (Str.split Str.LF out) no_addresses) as [-> ->];
    simpl; try (intros ? [=]); auto.
Qed.

Lemma or_dash_found f lines :
  (forall l t, f l = Some t -> Str.truthy t = true) ->
  or_dash (first_some f lines)
    = match first_some f lines with Some t => t | None => "-" end.
Proof.
  intros Hf. destruct (first_some f lines) as [t|] eqn:E; simpl; [|reflexivity].
  now rewrite (first_some_truthy _ _ _ Hf E).
Qed.

(** The addresses of the record, for a reply with exit code 0. *)
Lemma scan_reply_spec out m :
  let found := scan_reply (Some {| code := 0; stdout := Some out; message := m |}) in
  or_dash (found_ipv4 found)
    = match first_some ipv4Match (Str.split Str.LF out) with
      | Some t => t | None => "-" end /\
  or_dash (found_ipv6 found)
    = match first_some global6 (Str.split Str.LF out) with
      | Some t => t | None => "-" end.
Proof.
  simpl. destruct out as [|c out].
  - simpl. split; reflexivity.
  - change (Str.truthy (String c out)) with true. cbv iota.
    destruct (scan_output_spec (String c out)) as [-> ->].
    split; apply or_dash_found.
    + intros l t. apply match_marker_truthy.
    + apply global6_truthy.
Qed.

End Scan.

(** ** The interface collector *)

(** A read that brought no text: the failure indicator, or the empty text. *)
Definition no_text (r : read_result) : Prop := r = None \/ r = Some "".

(** The address command did not run, or it exited with a code other than 0. *)
Definition not_run_or_nonzero (ipRes : option exec_result) : Prop :=
  ipRes = None \/ exists reply, ipRes = Some reply /\ code reply <> 0.

Lemma truthy_text_no_text r : truthy_text r = false <-> no_text r.
Proof.
  unfold no_text. destruct r as [[|c s]|]; simpl; split; intros H; auto;
    try discriminate; destruct H as [H|H]; discriminate.
Qed.

Lemma command_failed_iff ipRes :
  command_failed ipRes = true <-> not_run_or_nonzero ipRes.
Proof.
  unfold not_run_or_nonzero. destruct ipRes as [reply|]; simpl.
  - rewrite negb_true_iff, Z.eqb_neq. split.
    + intros H. right. now exists reply.
    + intros [H|(r & [= <-] & H)]; [discriminate | assumption].
  - split; auto.
Qed.

Lemma loadInterfaceInfo_none rx tx mtu ipRes :
  loadInterfaceInfo rx tx mtu ipRes = None <->
  truthy_text rx = false /\ truthy_text mtu = false /\ command_failed ipRes = true.
Proof.
  unfold loadInterfaceInfo.
  destruct (truthy_text rx), (truthy_text mtu), (command_failed ipRes); simpl;
    split; try discriminate; intuition discriminate.
Qed.

Lemma bytes_field_no_text r : no_text r -> bytes_field r = "-".
Proof. intros [-> | ->]; reflexivity. Qed.

Lemma mtu_field_no_text r : no_text r -> mtu_field r = "-".
Proof. intros [-> | ->]; reflexivity. Qed.

Lemma scan_reply_failed ipRes :
  command_failed ipRes = true -> scan_reply ipRes = no_addresses.
Proof.
  destruct ipRes as [reply|]; simpl; [|reflexivity].
  intros H. apply negb_true_iff in H. now rewrite H.
Qed.

(** C1, as the collector has it. The result is absent exactly when the RX
    read brought no text (it failed, or the text is empty), the MTU read
    brought no text, and the address command did not run or exited with a
    code other than 0; the TX read has no part in it. In every other case
    the result is one record, named after the interface, in which each
    field whose source brought nothing is ["-"]. The interface view returns
    the empty array and the array of that one record in the same cases. *)
Theorem loadInterfaceInfo_absent_iff (rx tx mtu : read_result)
    (ipRes : option exec_result) :
  (loadInterfaceInfo rx tx mtu ipRes = None <->
     no_text rx /\ no_text mtu /\ not_run_or_nonzero ipRes) /\
  (forall info, loadInterfaceInfo rx tx mtu ipRes = Some info ->
     InterfaceInfo.name info = "tailscale0" /\
     (no_text rx -> InterfaceInfo.rxBytes info = "-") /\
     (no_text tx -> InterfaceInfo.txBytes info = "-") /\
     (no_text mtu -> InterfaceInfo.mtu info = "-") /\
     (not_run_or_nonzero ipRes ->
        InterfaceInfo.ipv4 info = "-" /\ InterfaceInfo.ipv6 info = "-")) /\
  (InterfaceView.load rx tx mtu ipRes = [] <->
     loadInterfaceInfo rx tx mtu ipRes = None) /\
  (forall info, loadInterfaceInfo rx tx mtu ipRes = Some info ->
     InterfaceView.load rx tx mtu ipRes = [info]).
Proof.
  split; [|split; [|split]].
  - rewrite <- !truthy_text_no_text, <- command_failed_iff.
    apply loadInterfaceInfo_none.
  - intros info H. unfold loadInterfaceInfo in H.
    destruct (_ && _); [discriminate|]. injection H as <-. simpl.
    split; [reflexivity|]. split; [apply bytes_field_no_text|].
    split; [apply bytes_field_no_text|]. split; [apply mtu_field_no_text|].
    intros Hip. apply command_failed_iff in Hip.
    rewrite scan_reply_failed by assumption. split; reflexivity.
  - unfold InterfaceView.load.
    destruct (loadInterfaceInfo rx tx mtu ipRes); split; congruence.
  - intros info H. unfold InterfaceView.load. now rewrite H.
Qed.

(** C1, as the claim has it, fails where a read succeeds with an empty
    text: the RX read did not fail, and yet the result is absent. *)
Lemma loadInterfaceInfo_absent_on_empty_text :
  loadInterfaceInfo (Some "") None None None = None /\
  ~ (forall rx tx mtu ipRes,
       loadInterfaceInfo rx tx mtu ipRes = None <->
       rx = None /\ mtu = None /\ not_run_or_nonzero ipRes).
Proof.
  split; [reflexivity|].
  intros H. destruct (H (Some "") None None None) as [H1 _].
  destruct (H1 eq_refl) as [E _]. discriminate.
Qed.

(** A dotted quad, as the claim names the IPv4 token: four groups of
    decimal digits, none of them empty, with dots between them. *)
Definition is_dotted_quad (s : string) : bool :=
  match Str.split "." s with
  | [a; b; c; d] =>
      forallb (fun g => Str.truthy g && Str.all Str.is_digit g) [a; b; c; d]
  | _ => false
  end.

Definition address_reply (out : string) (m : value) : option exec_result :=
  Some {| code := 0; stdout := Some out; message := m |}.

Lemma loadInterfaceInfo_ran rx tx mtu out m :
  loadInterfaceInfo rx tx mtu (address_reply out m)
  = Some {| InterfaceInfo.name := ifname;
            InterfaceInfo.rxBytes := bytes_field rx;
            InterfaceInfo.txBytes := bytes_field tx;
            InterfaceInfo.mtu := mtu_field mtu;
            InterfaceInfo.ipv4 :=
              match Scan.first_some ipv4Match (Str.split Str.LF out) with
              | Some t => t | None => "-" end;
            InterfaceInfo.ipv6 :=
              match Scan.first_some Scan.global6 (Str.split Str.LF out) with
              | Some t => t | None => "-" end |}.
Proof.
  unfold loadInterfaceInfo, address_reply.
  replace (command_failed _) with false by reflexivity.
  rewrite !andb_false_r.
  destruct (Scan.scan_reply_spec out m) as [-> ->]. reflexivity.
Qed.

Definition LINE_INET : string :=
  "    inet 100.80.52.1/32 scope global tailscale0".
Definition LINE_INET6_LINK : string := "inet6 fe80::1/64 scope link".
Definition LINE_INET6_GLOBAL : string :=
  "inet6 fd7a:115c:a1e0::9f01:1560/128 scope global".

(** *** The lines of an output *)

Module Lines.

Definition no_LF (c : ascii) : bool := negb (Ascii.eqb c Str.LF).

(** A text that holds no line feed. *)
Definition one_line (l : string) : Prop := Str.all no_LF l = true.

(** The text whose lines are the given ones: a line feed between each two
    of them, none after the last. *)
Fixpoint unlines (lines : list string) : string :=
  match lines with
  | [] => ""
  | l :: rest =>
      match rest with
      | [] => l
      | _ :: _ => l ++ String Str.LF (unlines rest)
      end
  end.

Lemma split_nonempty sep s : Str.split sep s <> [].
Proof.
  destruct s as [|c s]; simpl; [discriminate|].
  destruct (Ascii.eqb c sep); [discriminate|].
  destruct (Str.split sep s); discriminate.
Qed.

Lemma split_one_line l : one_line l -> Str.split Str.LF l = [l].
Proof.
  unfold one_line. induction l as [|c l IH]; simpl; [reflexivity|].
  intros H. apply andb_true_iff in H as [Hc Hl].
  unfold no_LF in Hc. apply negb_true_iff in Hc. rewrite Hc.
  now rewrite (IH Hl).
Qed.

Lemma split_line_feed l s :
  one_line l ->
  Str.split Str.LF (l ++ String Str.LF s) = l :: Str.split Str.LF s.
Proof.
  unfold one_line. induction l as [|c l IH]; simpl; [reflexivity|].
  intros H. apply andb_true_iff in H as [Hc Hl].
  unfold no_LF in Hc. apply negb_true_iff in Hc. rewrite Hc.
  now rewrite (IH Hl).
Qed.

(** [split] undoes [unlines]: the pieces of the text are its lines, in
    order. *)
Lemma split_unlines lines :
  lines <> [] -> Forall one_line lines ->
  Str.split Str.LF (unlines lines) = lines.
Proof.
  induction lines as [|l lines IH]; [congruence|]. intros _ H.
  apply Forall_cons_iff in H as [Hl Hrest].
  destruct lines as [|l' lines].
  - now apply split_one_line.
  - change (unlines (l :: l' :: lines))
      with (l ++ String Str.LF (unlines (l' :: lines))).
    rewrite (split_line_feed _ _ Hl), IH; [reflexivity | discriminate | assumption].
Qed.

Lemma unlines_cons_char c piece rest :
  unlines (String c piece :: rest) = String c (unlines (piece :: rest)).
Proof. destruct rest; reflexivity. Qed.

(** [unlines] undoes [split]: every text is made of its pieces. *)
Lemma unlines_split s : unlines (Str.split Str.LF s) = s.
Proof.
  induction s as [|c s IH]; [reflexivity|]. cbn [Str.split].
  destruct (Ascii.eqb c Str.LF) eqn:E.
  - apply Ascii.eqb_eq in E. subst c.
    destruct (Str.split Str.LF s) as [|p rest] eqn:Es.
    + now elim (split_nonempty Str.LF s).
    + change (unlines ("" :: p :: rest)) with (String Str.LF (unlines (p :: rest))).
      now rewrite IH.
  - destruct (Str.split Str.LF s) as [|p rest] eqn:Es.
    + now elim (split_nonempty Str.LF s).
    + rewrite unlines_cons_char. now rewrite IH.
Qed.

Lemma split_lines s : Forall one_line (Str.split Str.LF s).
Proof.
  induction s as [|c s IH]; [repeat constructor|]. cbn [Str.split].
  destruct (Ascii.eqb c Str.LF) eqn:E.
  - constructor; [reflexivity | assumption].
  - destruct (Str.split Str.LF s) as [|p rest]; [repeat constructor|].
    + unfold one_line. simpl. unfold no_LF. now rewrite E.
    + apply Forall_cons_iff in IH as [Hp Hrest]. constructor; [|assumption].
      unfold one_line in *. simpl. unfold no_LF at 1. now rewrite E.
Qed.

(** The lines the loop of the collector goes over, for an output made of
    the given lines. *)
Lemma scanned lines f :
  Forall one_line lines -> f "" = None ->
  Scan.first_some f (Str.split Str.LF (unlines lines)) = Scan.first_some f lines.
Proof.
  intros H Hf. destruct lines as [|l lines].
  - simpl. now rewrite Hf.
  - rewrite split_unlines; [reflexivity | discriminate | assumption].
Qed.

End Lines.

(** The record for an address command that exited with code 0 and printed
    the given lines. *)
Lemma loadInterfaceInfo_lines rx tx mtu lines m :
  Forall Lines.one_line lines ->
  loadInterfaceInfo rx tx mtu (address_reply (Lines.unlines lines) m)
  = Some {| InterfaceInfo.name := ifname;
            InterfaceInfo.rxBytes := bytes_field rx;
            InterfaceInfo.txBytes := bytes_field tx;
            InterfaceInfo.mtu := mtu_field mtu;
            InterfaceInfo.ipv4 :=
              match Scan.first_some ipv4Match lines with
              | Some t => t | None => "-" end;
            InterfaceInfo.ipv6 :=
              match Scan.first_some Scan.global6 lines with
              | Some t => t | None => "-" end |}.
Proof.
  intros H. rewrite loadInterfaceInfo_ran.
  now rewrite !(Lines.scanned lines _ H) by reflexivity.
Qed.

(** A listing of the kind the address command prints, with the lines of
    the claims in it. *)
Definition IP_LINES : list string :=
  [ "7: tailscale0: <POINTOPOINT,MULTICAST,NOARP,UP,LOWER_UP> mtu 1280 state UNKNOWN";
    "    link/none";
    LINE_INET;
    "       valid_lft forever preferred_lft forever";
    "    inet 192.168.7.1/24 scope global secondary";
    LINE_INET6_LINK;
    "       valid_lft forever preferred_lft forever";
    LINE_INET6_GLOBAL;
    "    inet6 2001:db8::1/64 scope global";
    "" ].

(** C7, as the collector has it. Let the address command exit with code 0
    and print the given lines, one after the other with a line feed
    between them (every output is such a text, of the pieces [split]
    makes of it). The IPv4 field is the token of the first of the lines, in
    order, that the pattern accepts, and ["-"] when no line is accepted. A
    line is accepted when it is: optional white space, [inet], white space,
    and a token that is the longest run of digits and dots there, at least
    one character. When the line of the claim is the first accepted line,
    the field is [100.80.52.1]. *)
Theorem ipv4_first_match (rx tx mtu : read_result) (lines : list string)
    (m : value) :
  Forall Lines.one_line lines ->
  exists info,
    loadInterfaceInfo rx tx mtu (address_reply (Lines.unlines lines) m)
      = Some info /\
    (forall before line after token,
       lines = (before ++ line :: after)%list ->
       (forall l, In l before -> ipv4Match l = None) ->
       ipv4Match line = Some token ->
       InterfaceInfo.ipv4 info = token) /\
    ((forall l, In l lines -> ipv4Match l = None) ->
       InterfaceInfo.ipv4 info = "-") /\
    (forall line token,
       ipv4Match line = Some token <->
       Scan.shaped "inet" Str.is_digit_dot line token) /\
    (forall before after,
       lines = (before ++ LINE_INET :: after)%list ->
       (forall l, In l before -> ipv4Match l = None) ->
       InterfaceInfo.ipv4 info = "100.80.52.1") /\
    (forall out,
       Lines.unlines (Str.split Str.LF out) = out /\
       Forall Lines.one_line (Str.split Str.LF out)).
Proof.
  intros Hlines.
  eexists. split; [now apply loadInterfaceInfo_lines|]. simpl.
  assert (First : forall before line after token,
    lines = (before ++ line :: after)%list ->
    (forall l, In l before -> ipv4Match l = None) ->
    ipv4Match line = Some token ->
    match Scan.first_some ipv4Match lines with
    | Some t => t | None => "-" end = token).
  { intros before line after token -> Hb Hl.
    now rewrite (Scan.first_some_first _ _ _ after _ Hb Hl). }
  split; [exact First|].
  split; [intros H; now rewrite Scan.first_some_none|].
  split; [apply Scan.ipv4Match_shaped|].
  split.
  - intros before after Hs Hb. apply (First before LINE_INET after); auto.
  - intros out. split; [apply Lines.unlines_split | apply Lines.split_lines].
Qed.

Lemma ipv4_first_match_witness :
  Forall Lines.one_line IP_LINES /\
  option_map InterfaceInfo.ipv4
    (loadInterfaceInfo None None None
       (address_reply (Lines.unlines IP_LINES) VUndefined))
  = Some "100.80.52.1".
Proof.
  assert (H : Forall Lines.one_line IP_LINES) by (repeat constructor).
  split; [exact H|].
  destruct (ipv4_first_match None None None IP_LINES VUndefined H)
    as (info & E & _ & _ & _ & Hline & _).
  rewrite E. simpl. f_equal.
  apply (Hline (firstn 2 IP_LINES) (skipn 3 IP_LINES)); [reflexivity|].
  intros l [<-|[<-|[]]]; reflexivity.
Defined.

(** C7, as the claim has it, fails on a token that is no dotted quad: the
    pattern takes any run of digits and dots, a lone number or dots alone,
    also when a line with a dotted quad follows. *)
Lemma ipv4_token_not_dotted_quad :
  option_map InterfaceInfo.ipv4
    (loadInterfaceInfo None None None (address_reply "inet 7" VUndefined))
  = Some "7" /\
  is_dotted_quad "7" = false /\ "7" <> "-" /\
  option_map InterfaceInfo.ipv4
    (loadInterfaceInfo None None None (address_reply "inet ... up" VUndefined))
  = Some "..." /\
  is_dotted_quad "..." = false /\
  is_dotted_quad "100.80.52.1" = true /\
  option_map InterfaceInfo.ipv4
    (loadInterfaceInfo None None None
       (address_reply (Lines.unlines ["link/none"; "inet 7"; LINE_INET]) VUndefined))
  = Some "7".
Proof.
  split; [reflexivity|]. split; [reflexivity|]. split; [discriminate|].
  split; [reflexivity|]. split; [reflexivity|]. split; reflexivity.
Qed.

(** C8, as the collector has it. Let the address command exit with code 0
    and print the given lines, one after the other with a line feed
    between them. The IPv6 field is the token of the first of the lines, in
    order, that the pattern accepts with a token that does not start with
    [fe80], and ["-"] when there is no such line. A line is accepted when
    it is: optional white space, [inet6], white space, and a token that is
    the longest run of hexadecimal digits and colons there, at least one
    character. When the two lines of the claim are among the lines, in
    that order, and no line before the second of them has such a token, the
    first is skipped and the field is the address of the second. *)
Theorem ipv6_first_global (rx tx mtu : read_result) (lines : list string)
    (m : value) :
  Forall Lines.one_line lines ->
  exists info,
    loadInterfaceInfo rx tx mtu (address_reply (Lines.unlines lines) m)
      = Some info /\
    (forall before line after token,
       lines = (before ++ line :: after)%list ->
       (forall l t, In l before -> ipv6Match l = Some t ->
                    Str.startsWith t "fe80" = true) ->
       ipv6Match line = Some token -> Str.startsWith token "fe80" = false ->
       InterfaceInfo.ipv6 info = token) /\
    ((forall l t, In l lines -> ipv6Match l = Some t ->
                  Str.startsWith t "fe80" = true) ->
       InterfaceInfo.ipv6 info = "-") /\
    (forall line token,
       ipv6Match line = Some token <->
       Scan.shaped "inet6" Str.is_hex_colon line token) /\
    (forall before between after,
       lines = (before ++ LINE_INET6_LINK :: between
                       ++ LINE_INET6_GLOBAL :: after)%list ->
       (forall l t, In l (before ++ between)%list -> ipv6Match l = Some t ->
                    Str.startsWith t "fe80" = true) ->
       InterfaceInfo.ipv6 info = "fd7a:115c:a1e0::9f01:1560") /\
    (forall out,
       Lines.unlines (Str.split Str.LF out) = out /\
       Forall Lines.one_line (Str.split Str.LF out)).
Proof.
  intros Hlines.
  eexists. split; [now apply loadInterfaceInfo_lines|]. simpl.
  assert (Skip : forall ls,
    (forall l t, In l ls -> ipv6Match l = Some t ->
                 Str.startsWith t "fe80" = true) ->
    forall l, In l ls -> Scan.global6 l = None).
  { intros ls H l Hl. unfold Scan.global6.
    destruct (ipv6Match l) as [t|] eqn:E; [|reflexivity].
    now rewrite (H l t Hl E). }
  assert (First : forall before line after token,
    lines = (before ++ line :: after)%list ->
    (forall l t, In l before -> ipv6Match l = Some t ->
                 Str.startsWith t "fe80" = true) ->
    ipv6Match line = Some token -> Str.startsWith token "fe80" = false ->
    match Scan.first_some Scan.global6 lines with
    | Some t => t | None => "-" end = token).
  { intros before line after token -> Hb Hl Hg.
    rewrite (Scan.first_some_first Scan.global6 before line after token).
    - reflexivity.
    - now apply Skip.
    - unfold Scan.global6. now rewrite Hl, Hg. }
  split; [exact First|].
  split.
  { intros H. rewrite Scan.first_some_none; [reflexivity | now apply Skip]. }
  split; [apply Scan.ipv6Match_shaped|].
  split.
  - intros before between after Hs Hb.
    apply (First (before ++ LINE_INET6_LINK :: between)%list
             LINE_INET6_GLOBAL after).
    + now rewrite <- app_assoc.
    + intros l t Hin. apply in_app_or in Hin as [Hin|[<-|Hin]].
      * apply Hb. apply in_or_app. now left.
      * vm_compute. now intros [= <-].
      * apply Hb. apply in_or_app. now right.
    + reflexivity.
    + reflexivity.
  - intros out. split; [apply Lines.unlines_split | apply Lines.split_lines].
Qed.

Lemma ipv6_first_global_witness :
  Forall Lines.one_line IP_LINES /\
  option_map InterfaceInfo.ipv6
    (loadInterfaceInfo None None None
       (address_reply (Lines.unlines IP_LINES) VUndefined))
  = Some "fd7a:115c:a1e0::9f01:1560".
Proof.
  assert (H : Forall Lines.one_line IP_LINES) by (repeat constructor).
  split; [exact H|].
  destruct (ipv6_first_global None None None IP_LINES VUndefined H)
    as (info & E & _ & _ & _ & Hline & _).
  rewrite E. simpl. f_equal.
  apply (Hline (firstn 5 IP_LINES) (firstn 1 (skipn 6 IP_LINES))
           (skipn 8 IP_LINES)); [reflexivity|].
  intros l t [<-|[<-|[<-|[<-|[<-|[<-|[]]]]]]]; vm_compute; intros [=].
Defined.

(** C8, as the claim has it, fails in three ways. An output that holds
    the two lines of the claim after a line with another address yields
    that address: the first line with a token wins. A token that follows
    [inet6] further on in a line is not found: the pattern wants the marker
    at the start of the line, after white space at most. And the same two
    lines yield ["-"] when the command exited with a code other than 0:
    the output is then not looked at. *)
Lemma ipv6_first_line_wins :
  option_map InterfaceInfo.ipv6
    (loadInterfaceInfo None None None
       (address_reply
          (Lines.unlines ["inet6 2001:db8::1/64 scope global";
                          LINE_INET6_LINK; LINE_INET6_GLOBAL]) VUndefined))
  = Some "2001:db8::1" /\
  "2001:db8::1" <> "fd7a:115c:a1e0::9f01:1560" /\
  Str.includes "link/none inet6 fd7a:115c:a1e0::9f01:1560/128"
    "inet6 fd7a:115c:a1e0::9f01:1560" = true /\
  option_map InterfaceInfo.ipv6
    (loadInterfaceInfo None None None
       (address_reply "link/none inet6 fd7a:115c:a1e0::9f01:1560/128" VUndefined))
  = Some "-" /\
  option_map InterfaceInfo.ipv6
    (loadInterfaceInfo (Some "0") None None
       (Some {| code := 1;
                stdout := Some (Lines.unlines [LINE_INET6_LINK; LINE_INET6_GLOBAL]);
                message := VUndefined |}))
  = Some "-" /\
  option_map InterfaceInfo.ipv6
    (loadInterfaceInfo (Some "0") None None
       (address_reply (Lines.unlines [LINE_INET6_LINK; LINE_INET6_GLOBAL])
          VUndefined))
  = Some "fd7a:115c:a1e0::9f01:1560".
Proof.
  split; [reflexivity|]. split; [discriminate|]. split; [reflexivity|].
  split; [reflexivity|]. split; reflexivity.
Qed.

(** ** Decimal numerals and the byte counters *)

Module NumFacts.

Import StrFacts.

Definition not_ws (c : ascii) : bool := negb (Str.is_ws c).

Lemma digit_not_ws c : Str.is_digit c = true -> Str.is_ws c = false.
Proof. destruct c as [[] [] [] [] [] [] [] []]; vm_compute; congruence. Qed.

Lemma digit_no_sign c s :
  Str.is_digit c = true -> Num.sign_split (String c s) = (false, String c s).
Proof. destruct c as [[] [] [] [] [] [] [] []]; vm_compute; congruence. Qed.

(** The text of a numeral is made of digits. *)
Lemma numeral_digits u : Str.all Str.is_digit (NilEmpty.string_of_uint u) = true.
Proof. induction u; simpl; auto. Qed.

Lemma all_weaken (p q : ascii -> bool) s :
  (forall c, p c = true -> q c = true) -> Str.all p s = true -> Str.all q s = true.
Proof.
  intros Hpq. induction s as [|c s IH]; simpl; [reflexivity|].
  rewrite !andb_true_iff. intros [H1 H2]. auto.
Qed.

(** Reading back the text of a numeral, up to what cannot be a digit. *)
Lemma take_digits_numeral u rest :
  starts Str.is_digit rest = false ->
  Num.take_digits (NilEmpty.string_of_uint u ++ rest) = (u, rest).
Proof.
  intros Hr. induction u; simpl; try (rewrite IHu; reflexivity).
  destruct rest as [|c rest]; simpl in *; [reflexivity | now rewrite Hr].
Qed.

Lemma to_uint_nonnil n : N.to_uint n <> Decimal.Nil.
Proof.
  destruct n as [|p]; simpl; [discriminate|]. apply Unsigned.to_uint_nonnil.
Qed.

(** [parseInt] reads the decimal text of a count back, whatever follows it
    that is no digit, white space around it included. *)
Lemma parseInt_decimal n rest :
  0 <= n -> starts Str.is_digit rest = false ->
  Num.parseInt (Str.trim (Num.decimal n ++ rest)) = Some n.
Proof.
  intros Hn Hr. unfold Num.decimal.
  set (u := N.to_uint (Z.to_N n)).
  assert (Hu : u <> Decimal.Nil) by apply to_uint_nonnil.
  assert (Hd := numeral_digits u).
  assert (Hnw : Str.all not_ws (NilEmpty.string_of_uint u) = true).
  { apply all_weaken with (p := Str.is_digit); [|assumption].
    intros c Hc. unfold not_ws. now rewrite digit_not_ws. }
  assert (Hstart : exists c s, NilEmpty.string_of_uint u = String c s
                               /\ Str.is_digit c = true).
  { destruct (NilEmpty.string_of_uint u) as [|c s] eqn:E.
    - destruct u; simpl in E; congruence.
    - exists c, s. simpl in Hd. apply andb_true_iff in Hd as [Hd _]. auto. }
  destruct Hstart as (c & s & Es & Hc).
  unfold Str.trim, Str.trimStart.
  assert (Hdrop : Str.drop_while Str.is_ws (NilEmpty.string_of_uint u ++ rest)
                  = NilEmpty.string_of_uint u ++ rest).
  { rewrite Es. simpl. now rewrite (digit_not_ws c Hc). }
  rewrite Hdrop, (trimEnd_app _ _ Hnw).
  unfold Num.parseInt, Str.trimStart.
  assert (Hdrop' : Str.drop_while Str.is_ws
                     (NilEmpty.string_of_uint u ++ Str.trimEnd rest)
                   = NilEmpty.string_of_uint u ++ Str.trimEnd rest).
  { rewrite Es. simpl. now rewrite (digit_not_ws c Hc). }
  rewrite Hdrop'.
  replace (Num.sign_split (NilEmpty.string_of_uint u ++ Str.trimEnd rest))
    with (false, NilEmpty.string_of_uint u ++ Str.trimEnd rest)
    by (rewrite Es;
        change (String c s ++ Str.trimEnd rest)
          with (String c (s ++ Str.trimEnd rest));
        now rewrite digit_no_sign).
  rewrite take_digits_numeral by now apply starts_trimEnd.
  destruct u eqn:Eu; try congruence;
    rewrite <- Eu; unfold u; rewrite Unsigned.of_to; f_equal; lia.
Qed.

(** *** The decimal expansion of a quotient *)

Definition is_decimal_digit (d : Z) : Prop := 0 <= d < 10.

Lemma digits_value_acc ds : forall acc,
  fold_left (fun a d => 10 * a + d) ds acc
  = acc * 10 ^ Z.of_nat (List.length ds) + Format.digits_value ds.
Proof.
  unfold Format.digits_value.
  induction ds as [|d ds IH]; intros acc; cbn [fold_left List.length].
  - simpl. lia.
  - rewrite (IH (10 * acc + d)), (IH (10 * 0 + d)).
    rewrite Nat2Z.inj_succ, Z.pow_succ_r by lia. ring.
Qed.

Lemma digits_value_cons d ds :
  Format.digits_value (d :: ds)
  = d * 10 ^ Z.of_nat (List.length ds) + Format.digits_value ds.
Proof.
  unfold Format.digits_value at 1. cbn [fold_left].
  rewrite digits_value_acc. f_equal.
Qed.

(** The digits [frac_digits] gives are the whole expansion of [r / d] as
    soon as [d] divides [r * 10 ^ k]. *)
Lemma frac_digits_exact d k : forall r,
  0 < d -> 0 <= r < d -> (d | r * 10 ^ Z.of_nat k) ->
  let ds := Format.frac_digits k r d in
  r * 10 ^ Z.of_nat (List.length ds) = Format.digits_value ds * d /\
  Forall is_decimal_digit ds.
Proof.
  induction k as [|k IH]; intros r Hd Hr Hdiv; cbn [Format.frac_digits].
  - split; [|constructor].
    change (10 ^ Z.of_nat 0) with 1 in Hdiv. rewrite Z.mul_1_r in Hdiv.
    assert (r = 0).
    { destruct (Z.eq_dec r 0) as [|Hne]; [assumption|].
      apply Z.divide_pos_le in Hdiv; lia. }
    subst r. reflexivity.
  - destruct (r =? 0) eqn:E.
    + apply Z.eqb_eq in E. subst r. simpl. split; [reflexivity | constructor].
    + apply Z.eqb_neq in E.
      assert (Hdm := Z.div_mod (10 * r) d ltac:(lia)).
      assert (Hm := Z.mod_pos_bound (10 * r) d Hd).
      set (q := (10 * r) / d) in *. set (r' := (10 * r) mod d) in *.
      assert (Hq : 0 <= q < 10).
      { split; [apply Z.div_pos; lia | apply Z.div_lt_upper_bound; lia]. }
      destruct (IH r' Hd Hm) as [IH1 IH2].
      { destruct Hdiv as [c Hc].
        rewrite Nat2Z.inj_succ, Z.pow_succ_r in Hc by lia.
        exists (c - q * 10 ^ Z.of_nat k).
        replace r' with (10 * r - d * q) by lia. lia. }
      cbv zeta. cbn [List.length]. rewrite digits_value_cons.
      rewrite Nat2Z.inj_succ, Z.pow_succ_r by lia.
      split; [|constructor; assumption].
      set (P := 10 ^ Z.of_nat (List.length (Format.frac_digits k r' d))) in *.
      transitivity (10 * r * P); [ring|].
      rewrite Hdm, Z.mul_add_distr_r, IH1. ring.
Qed.

Lemma MB_divides_power : (Format.MB | 10 ^ 20).
Proof. exists (5 ^ 20). reflexivity. Qed.

(** The text of a count of bytes is the exact decimal expansion of the
    count divided by 1048576, followed by the fixed suffix. *)
Lemma megabytes_exact n :
  0 <= n ->
  exists whole ds,
    Format.format_1024mB (VNum (inject_Z n))
      = Num.decimal whole ++ Format.fraction_text ds ++ " MB" /\
    0 <= whole /\ Forall is_decimal_digit ds /\
    (whole * 10 ^ Z.of_nat (List.length ds) + Format.digits_value ds) * 1048576
      = n * 10 ^ Z.of_nat (List.length ds).
Proof.
  intros Hn.
  exists (n / Format.MB), (Format.frac_digits 20 (n mod Format.MB) Format.MB).
  assert (HMB : 0 < Format.MB) by reflexivity.
  assert (Hm := Z.mod_pos_bound n Format.MB HMB).
  destruct (frac_digits_exact Format.MB 20 (n mod Format.MB) HMB Hm) as [E F].
  { apply Z.divide_mul_r. apply MB_divides_power. }
  cbv zeta in E, F.
  repeat split.
  - unfold Format.format_1024mB, Format.megabytes, Format.quotient_text.
    simpl Qnum. simpl Qden.
    replace (n <? 0) with false by (symmetry; apply Z.ltb_ge; lia).
    rewrite Z.abs_eq by lia.
    change (Z.pos 1 * Format.MB) with Format.MB.
    simpl. now rewrite app_assoc.
  - apply Z.div_pos; lia.
  - assumption.
  - assert (Hdm := Z.div_mod n Format.MB ltac:(lia)).
    change 1048576 with Format.MB.
    set (P := 10 ^ Z.of_nat (List.length (Format.frac_digits 20 (n mod Format.MB) Format.MB))) in *.
    rewrite Z.mul_add_distr_r, <- E.
    set (a := n / Format.MB) in *. set (b := n mod Format.MB) in *.
    clearbody P a b. rewrite Hdm. ring.
Qed.

End NumFacts.

(** What a byte-counter field of the record is, given what its read
    brought. *)
Definition counter_rule (res : read_result) (field : string) : Prop :=
  (* the decimal text of a count that a number holds exactly, followed by
     anything that is no digit *)
  (forall n rest,
     0 <= n <= Num.MAX_EXACT -> StrFacts.starts Str.is_digit rest = false ->
     res = Some (Num.decimal n ++ rest) ->
     field = Format.format_1024mB (VNum (inject_Z n)) /\
     exists whole ds,
       field = Num.decimal whole ++ Format.fraction_text ds ++ " MB" /\
       0 <= whole /\ Forall NumFacts.is_decimal_digit ds /\
       (whole * 10 ^ Z.of_nat (List.length ds) + Format.digits_value ds) * 1048576
         = n * 10 ^ Z.of_nat (List.length ds)) /\
  (* a text that is not empty and in which [parseInt] finds no number *)
  (forall text,
     res = Some text -> text <> "" -> Num.parseInt (Str.trim text) = None ->
     field = "0 MB") /\
  (* no text: the read failed, or the text is empty *)
  (no_text res -> field = "-" /\ field <> "0 MB").

Lemma bytes_field_rule res : counter_rule res (bytes_field res).
Proof.
  unfold counter_rule. split; [|split].
  - intros n rest [Hn _] Hrest ->.
    assert (E : bytes_field (Some (Num.decimal n ++ rest))
                = Format.format_1024mB (VNum (inject_Z n))).
    { unfold bytes_field.
      rewrite (NumFacts.parseInt_decimal n rest Hn Hrest). simpl Num.or_zero.
      destruct (Num.decimal n ++ rest) eqn:Et; [|reflexivity].
      exfalso. unfold Num.decimal in Et.
      destruct (N.to_uint (Z.to_N n)) eqn:Eu; simpl in Et; try discriminate.
      now apply NumFacts.to_uint_nonnil in Eu. }
    split; [exact E|]. rewrite E. now apply NumFacts.megabytes_exact.
  - intros text -> Hne Hnan. unfold bytes_field.
    apply StrFacts.truthy_true in Hne. rewrite Hne, Hnan. reflexivity.
  - intros H. rewrite (bytes_field_no_text _ H). split; [reflexivity|discriminate].
Qed.

(** C5, as the collector has it. In the record, when a counter file was
    read as the decimal text of a count of bytes from 0 to 2 ^ 53 (followed
    by a line end, or by anything that is no digit), the field is that count
    divided by 1048576, written out exactly in decimal and followed by
    [" MB"]; when
    the text is not empty and holds no number, the field is the text of
    zero, ["0 MB"]; when the read failed, or brought the empty text, the
    field is ["-"] and not ["0 MB"]. *)
Theorem byte_counters_formatted (rx tx mtu : read_result)
    (ipRes : option exec_result) (info : InterfaceInfo.t) :
  loadInterfaceInfo rx tx mtu ipRes = Some info ->
  counter_rule rx (InterfaceInfo.rxBytes info) /\
  counter_rule tx (InterfaceInfo.txBytes info).
Proof.
  unfold loadInterfaceInfo. destruct (_ && _); [discriminate|].
  intros [= <-]. simpl. split; apply bytes_field_rule.
Qed.

Lemma byte_counters_formatted_witness :
  counter_rule (Some ("2097152" ++ String Str.LF "")) "2 MB" /\
  counter_rule None "-".
Proof.
  apply (byte_counters_formatted
           (Some ("2097152" ++ String Str.LF "")) None None None
           {| InterfaceInfo.name := "tailscale0";
              InterfaceInfo.rxBytes := "2 MB";
              InterfaceInfo.txBytes := "-";
              InterfaceInfo.mtu := "-";
              InterfaceInfo.ipv4 := "-";
              InterfaceInfo.ipv6 := "-" |}).
  reflexivity.
Defined.

(** C5, as the claim has it, fails on a read that succeeds with the empty
    text: the value is missing, and yet the field is ["-"] where the claim
    has the text of zero. *)
Lemma empty_counter_is_dash :
  option_map InterfaceInfo.rxBytes
    (loadInterfaceInfo (Some "") None (Some "1280") None) = Some "-" /\
  Format.format_1024mB (VNum (inject_Z (Num.or_zero (Num.parseInt (Str.trim "")))))
  = "0 MB".
Proof. split; reflexivity. Qed.

(** ** The peer-status collector *)

Module FormatFacts.

(** The first [%s] of a template is where the argument goes. *)
Lemma format_s_first pre post arg :
  Str.includes pre "%s" = false ->
  Format.format_s (pre ++ "%s" ++ post) arg = pre ++ arg ++ post.
Proof.
  induction pre as [|c pre IH]; intros H.
  - reflexivity.
  - simpl in H. apply orb_false_iff in H as [Hs Hi].
    change (String c pre ++ "%s" ++ post) with (String c (pre ++ "%s" ++ post)).
    cbn [Format.format_s]. rewrite (IH Hi).
    unfold Str.startsWith in Hs. cbn [Str.strip_prefix] in Hs |- *.
    destruct (Ascii.eqb "%" c); [|reflexivity].
    destruct pre as [|d pre]; cbn [append Str.strip_prefix] in Hs |- *.
    + reflexivity.
    + destruct (Ascii.eqb "s" d); [discriminate | reflexivity].
Qed.

End FormatFacts.

Section CollectorFacts.

Variable gettext : string -> string.
Variable JSON_parse : string -> Js.completion value.

Lemma loadPeerStatus_failed outcome statusRes :
  settle outcome = Some statusRes -> code statusRes <> 0 ->
  loadPeerStatus gettext JSON_parse outcome
  = Js.Normal (classify gettext (message_text statusRes)).
Proof.
  intros Hs H. unfold loadPeerStatus. rewrite Hs.
  apply Z.eqb_neq in H. now rewrite H.
Qed.

Lemma loadPeerStatus_blank outcome statusRes :
  settle outcome = Some statusRes ->
  code statusRes = 0 -> blank_output statusRes = true ->
  loadPeerStatus gettext JSON_parse outcome
  = Js.Normal (StatusError (gettext MSG_EMPTY)).
Proof.
  intros Hs Hc Hb. unfold loadPeerStatus. rewrite Hs, Hc, Hb. reflexivity.
Qed.

Lemma loadPeerStatus_parsed reply out :
  code reply = 0 -> stdout reply = Some out -> blank_output reply = false ->
  loadPeerStatus gettext JSON_parse (Resolved reply)
  = Js.Normal (parse_status gettext JSON_parse out).
Proof.
  intros Hc Ho Hb. unfold loadPeerStatus. cbn [settle].
  rewrite Hc, Hb, Ho. reflexivity.
Qed.

(** The reply of a rejected promise, as the [catch] makes it. *)
Definition caught (err_message : value) : exec_result :=
  {| code := 1; stdout := None;
     message := Js.or err_message (VStr MSG_EXEC_FAILED) |}.

Lemma loadPeerStatus_rejected err_message :
  loadPeerStatus gettext JSON_parse (Rejected err_message)
  = Js.Normal (classify gettext (message_text (caught err_message))).
Proof. apply loadPeerStatus_failed; [reflexivity | discriminate]. Qed.

Lemma classify_error m : exists msg, classify gettext m = StatusError msg.
Proof.
  unfold classify.
  destruct (Str.includes m "Permission"); [eauto|].
  destruct (_ || _); eauto.
Qed.

Lemma classify_permission m :
  Str.includes m "Permission" = true ->
  classify gettext m = StatusError (gettext MSG_PERMISSION).
Proof. intros H. unfold classify. now rewrite H. Qed.

Lemma classify_not_running m :
  Str.includes m "Permission" = false ->
  Str.includes m "not running" = true \/ Str.includes m "stopped" = true ->
  classify gettext m = StatusError (gettext MSG_NOT_RUNNING).
Proof.
  intros H1 H2. unfold classify. rewrite H1.
  replace (_ || _) with true; [reflexivity|].
  symmetry. apply orb_true_iff. exact H2.
Qed.

Lemma classify_generic m :
  Str.includes m "Permission" = false ->
  Str.includes m "not running" = false -> Str.includes m "stopped" = false ->
  classify gettext m = StatusError (Format.format_s (gettext MSG_UNABLE) m).
Proof. intros H1 H2 H3. unfold classify. now rewrite H1, H2, H3. Qed.

End CollectorFacts.

(** Every outcome of the status command that is a rejection or a reply
    object is absorbed by [loadPeerStatus]: it completes normally, with an
    error object in each of the failure cases and otherwise with an error
    object or a list of peers. *)
Lemma loadPeerStatus_absorbs (gettext : string -> string)
    (JSON_parse : string -> Js.completion value) (outcome : exec_outcome)
    (statusRes : exec_result) :
  settle outcome = Some statusRes ->
  exists status,
    loadPeerStatus gettext JSON_parse outcome = Js.Normal status /\
    ((exists msg, status = StatusError msg) \/
     (exists peerList, status = StatusPeers peerList)) /\
    ((exists err, outcome = Rejected err) -> exists msg, status = StatusError msg) /\
    (code statusRes <> 0 -> exists msg, status = StatusError msg) /\
    (blank_output statusRes = true -> exists msg, status = StatusError msg) /\
    (forall out e_message,
       stdout statusRes = Some out -> JSON_parse out = Js.Throw e_message ->
       exists msg, status = StatusError msg).
Proof.
  intros Hs.
  destruct (Z.eq_dec (code statusRes) 0) as [Hc|Hc].
  - destruct (blank_output statusRes) eqn:Hb.
    + exists (StatusError (gettext MSG_EMPTY)).
      split; [now apply (loadPeerStatus_blank gettext JSON_parse outcome statusRes)|].
      repeat split; eauto.
    + destruct outcome as [reply| |err]; [| discriminate Hs |].
      2:{ injection Hs as <-. discriminate Hc. }
      injection Hs as ->.
      destruct (stdout statusRes) as [out|] eqn:Ho.
      2:{ unfold blank_output in Hb. rewrite Ho in Hb. discriminate. }
      exists (parse_status gettext JSON_parse out).
      split; [now apply loadPeerStatus_parsed|].
      split; [|split; [|split; [|split]]].
      * unfold parse_status. destruct (Js.bind _ _); eauto.
      * intros [err [=]].
      * intros H. contradiction.
      * discriminate.
      * intros out' e Ho' Hp. injection Ho' as <-.
        unfold parse_status. rewrite Hp. simpl. eauto.
  - destruct (classify_error gettext (message_text statusRes)) as [msg Hm].
    exists (StatusError msg).
    split; [rewrite (loadPeerStatus_failed gettext JSON_parse outcome statusRes)
              by assumption; now rewrite Hm|].
    repeat split; eauto.
Qed.

(** C2. The combined load result is not always formed. When the address
    command of the interface collector raises (the promise of its
    [fs.exec] is rejected, the case the status command's own call catches),
    [load] throws the rejection on, whatever the status command did; so it
    does when one of the three reads is rejected. [loadPeerStatus] itself
    throws on a reply that is [null], which the interface collector tests
    its own reply for. On every other outcome of the status command
    (rejected, or resolved with a reply object of whatever code and output)
    [loadPeerStatus] completes normally with an error object or a list of
    peers, an error object in each of the failure cases, and [load] is
    formed of both results when the four promises of the interface
    collector are fulfilled. *)
Theorem load_rejects_when_address_command_raises (gettext : string -> string)
    (JSON_parse : string -> Js.completion value) :
  (forall rx tx mtu reason outcome,
     load gettext JSON_parse (Fulfilled rx) (Fulfilled tx) (Fulfilled mtu)
       (Failed reason) outcome = Js.Throw reason) /\
  (forall rxP txP mtuP ipP outcome,
     (exists reason,
        rxP = Failed reason \/ txP = Failed reason \/ mtuP = Failed reason \/
        ipP = Failed reason) ->
     exists reason,
       load gettext JSON_parse rxP txP mtuP ipP outcome = Js.Throw reason) /\
  (exists reason,
     loadPeerStatus gettext JSON_parse ResolvedNull = Js.Throw reason /\
     forall rxP txP mtuP ipP,
     exists reason',
       load gettext JSON_parse rxP txP mtuP ipP ResolvedNull = Js.Throw reason') /\
  (forall outcome,
     outcome <> ResolvedNull ->
     exists statusRes status,
       settle outcome = Some statusRes /\
       loadPeerStatus gettext JSON_parse outcome = Js.Normal status /\
       ((exists msg, status = StatusError msg) \/
        (exists peerList, status = StatusPeers peerList)) /\
       ((exists err, outcome = Rejected err) ->
        exists msg, status = StatusError msg) /\
       (code statusRes <> 0 -> exists msg, status = StatusError msg) /\
       (blank_output statusRes = true -> exists msg, status = StatusError msg) /\
       (forall out e_message,
          stdout statusRes = Some out -> JSON_parse out = Js.Throw e_message ->
          exists msg, status = StatusError msg) /\
       (forall rx tx mtu ipRes,
          load gettext JSON_parse (Fulfilled rx) (Fulfilled tx) (Fulfilled mtu)
            (Fulfilled ipRes) outcome
          = Js.Normal {| interfaceInfo := loadInterfaceInfo rx tx mtu ipRes;
                         peerStatus := status |})).
Proof.
  split; [reflexivity|].
  split.
  { intros rxP txP mtuP ipP outcome [reason H].
    destruct rxP as [rx|r1]; [|eexists; reflexivity].
    destruct txP as [tx|r2]; [|eexists; reflexivity].
    destruct mtuP as [mtu|r3]; [|eexists; reflexivity].
    destruct ipP as [ipRes|r4]; [|eexists; reflexivity].
    destruct H as [H|[H|[H|H]]]; discriminate H. }
  split.
  { eexists. split; [reflexivity|].
    intros rxP txP mtuP ipP.
    destruct rxP as [rx|r1]; [|eexists; reflexivity].
    destruct txP as [tx|r2]; [|eexists; reflexivity].
    destruct mtuP as [mtu|r3]; [|eexists; reflexivity].
    destruct ipP as [ipRes|r4]; eexists; reflexivity. }
  intros outcome Hn.
  assert (exists statusRes, settle outcome = Some statusRes) as [statusRes Hs].
  { destruct outcome; [eexists; reflexivity | contradiction | eexists; reflexivity]. }
  destruct (loadPeerStatus_absorbs gettext JSON_parse outcome statusRes Hs)
    as (status & Hl & Hkind & Hrej & Hcode & Hblank & Hparse).
  exists statusRes, status.
  repeat (split; [assumption|]).
  intros rx tx mtu ipRes. unfold load, loadInterfaceInfo_async.
  cbn [awaited Js.bind]. rewrite Hl. reflexivity.
Qed.

(** The [try] block does throw: a record that is [null] stops the loop. *)
Lemma peers_of_document_throws :
  exists e_message,
    peers_of_document (VObj [("Peer", VObj [("a", VNull)])]) = Js.Throw e_message.
Proof. eexists. reflexivity. Qed.

(** C3. When the status command exits with a code other than 0 and a
    message text [m]: if [m] contains [Permission] the result is the
    permission-denied message; otherwise, if [m] contains [not running] or
    [stopped], it is the service-not-running message; otherwise it is the
    generic failure message, in which [m] stands where the template has its
    [%s], so that [m] is part of it. *)
Theorem nonzero_exit_classified (gettext : string -> string)
    (JSON_parse : string -> Js.completion value) (reply : exec_result)
    (m : string) :
  code reply <> 0 -> message reply = VStr m ->
  (Str.includes m "Permission" = true ->
     loadPeerStatus gettext JSON_parse (Resolved reply)
     = Js.Normal (StatusError (gettext MSG_PERMISSION))) /\
  (Str.includes m "Permission" = false ->
   Str.includes m "not running" = true \/ Str.includes m "stopped" = true ->
     loadPeerStatus gettext JSON_parse (Resolved reply)
     = Js.Normal (StatusError (gettext MSG_NOT_RUNNING))) /\
  (Str.includes m "Permission" = false ->
   Str.includes m "not running" = false -> Str.includes m "stopped" = false ->
     loadPeerStatus gettext JSON_parse (Resolved reply)
     = Js.Normal (StatusError (Format.format_s (gettext MSG_UNABLE) m)) /\
     forall pre post,
       gettext MSG_UNABLE = pre ++ "%s" ++ post ->
       Str.includes pre "%s" = false ->
       Format.format_s (gettext MSG_UNABLE) m = pre ++ m ++ post /\
       Str.includes (Format.format_s (gettext MSG_UNABLE) m) m = true).
Proof.
  intros Hc Hm.
  assert (E : loadPeerStatus gettext JSON_parse (Resolved reply)
              = Js.Normal (classify gettext m)).
  { rewrite (loadPeerStatus_failed gettext JSON_parse (Resolved reply) reply)
      by (reflexivity || exact Hc).
    unfold message_text. now rewrite Hm. }
  rewrite E. split; [|split].
  - intros H. now rewrite classify_permission.
  - intros H1 H2. now rewrite classify_not_running.
  - intros H1 H2 H3. rewrite classify_generic by assumption.
    split; [reflexivity|]. intros pre post Ht Hpre.
    rewrite Ht, FormatFacts.format_s_first by assumption.
    split; [reflexivity | apply StrFacts.includes_app].
Qed.

Definition untranslated (s : string) : string := s.

Definition failed_reply (m : string) : exec_result :=
  {| code := 1; stdout := None; message := VStr m |}.

Lemma nonzero_exit_classified_witness :
  loadPeerStatus untranslated (fun _ => Js.Throw "") (Resolved (failed_reply "boom"))
  = Js.Normal (StatusError "Unable to get Tailscale status: boom").
Proof.
  apply (nonzero_exit_classified untranslated (fun _ => Js.Throw "")
           (failed_reply "boom") "boom");
    first [ discriminate | reflexivity ].
Defined.

(** C10. A message that contains [Permission] is classified as a
    permission failure even when it also contains [not running] or
    [stopped]: the first test of the chain decides. The same holds when the
    message is that of the error the command was rejected with. *)
Theorem permission_takes_precedence (gettext : string -> string)
    (JSON_parse : string -> Js.completion value) (reply : exec_result)
    (m : string) :
  code reply <> 0 -> message reply = VStr m ->
  Str.includes m "Permission" = true ->
  Str.includes m "not running" = true \/ Str.includes m "stopped" = true ->
  loadPeerStatus gettext JSON_parse (Resolved reply)
  = Js.Normal (StatusError (gettext MSG_PERMISSION)) /\
  loadPeerStatus gettext JSON_parse (Rejected (VStr m))
  = Js.Normal (StatusError (gettext MSG_PERMISSION)).
Proof.
  intros Hc Hm Hp _. split.
  - rewrite (loadPeerStatus_failed gettext JSON_parse (Resolved reply) reply)
      by (reflexivity || exact Hc).
    unfold message_text. rewrite Hm. now rewrite classify_permission.
  - rewrite loadPeerStatus_rejected.
    unfold caught, message_text, Js.or. simpl.
    assert (Ht : Str.truthy m = true).
    { destruct m; [discriminate Hp | reflexivity]. }
    rewrite Ht. now rewrite classify_permission.
Qed.

Lemma permission_takes_precedence_witness :
  loadPeerStatus untranslated Json.parse
    (Resolved (failed_reply "Permission denied: tailscaled is not running"))
  = Js.Normal (StatusError MSG_PERMISSION) /\
  loadPeerStatus untranslated Json.parse
    (Rejected (VStr "Permission denied: tailscaled is not running"))
  = Js.Normal (StatusError MSG_PERMISSION).
Proof.
  apply (permission_takes_precedence untranslated Json.parse
           (failed_reply "Permission denied: tailscaled is not running")
           "Permission denied: tailscaled is not running");
    first [ discriminate | reflexivity | left; reflexivity ].
Defined.

(** C4. When the status command exits with code 0 and its output is the
    empty text, or white space only, the result is the empty-output
    message, whatever [JSON.parse] would make of that text: the parser has
    no part in the result. *)
Theorem blank_output_reported (gettext : string -> string)
    (JSON_parse : string -> Js.completion value) (reply : exec_result)
    (out : string) :
  code reply = 0 -> stdout reply = Some out -> Str.all Str.is_ws out = true ->
  loadPeerStatus gettext JSON_parse (Resolved reply)
  = Js.Normal (StatusError (gettext MSG_EMPTY)).
Proof.
  intros Hc Ho Hw.
  apply (loadPeerStatus_blank gettext JSON_parse (Resolved reply) reply);
    [reflexivity | exact Hc |].
  unfold blank_output. rewrite Ho.
  rewrite (StrFacts.trim_blank out Hw). apply orb_true_r.
Qed.

Lemma blank_output_reported_witness :
  loadPeerStatus untranslated (fun _ => Js.Throw "never asked")
    (Resolved {| code := 0; stdout := Some ("  " ++ String Str.LF "");
                 message := VUndefined |})
  = Js.Normal (StatusError "Tailscale status returned empty output.") /\
  loadPeerStatus untranslated (fun _ => Js.Throw "never asked")
    (Resolved {| code := 0; stdout := Some ""; message := VUndefined |})
  = Js.Normal (StatusError "Tailscale status returned empty output.").
Proof.
  split.
  - apply (blank_output_reported untranslated (fun _ => Js.Throw "never asked")
             {| code := 0; stdout := Some ("  " ++ String Str.LF "");
                message := VUndefined |} ("  " ++ String Str.LF ""));
      reflexivity.
  - apply (blank_output_reported untranslated (fun _ => Js.Throw "never asked")
             {| code := 0; stdout := Some ""; message := VUndefined |} "");
      reflexivity.
Defined.

(** *** The peers of a parsed document *)

Definition dq : string := String (ascii_of_N 34) "".
Definition quoted (s : string) : string := dq ++ s ++ dq.

(** The status document of the specification's example: one peer, [a]. *)
Definition STATUS_DOC : string :=
  "{" ++ quoted "Peer" ++ ":{" ++ quoted "a" ++ ":{"
  ++ quoted "DNSName" ++ ":" ++ quoted "node1.tailnetxyz.ts.net." ++ ","
  ++ quoted "Online" ++ ":true,"
  ++ quoted "TailscaleIPs" ++ ":[" ++ quoted "100.1.2.3" ++ "],"
  ++ quoted "RxBytes" ++ ":2097152}}}".

Definition not_dot (c : ascii) : bool := negb (Ascii.eqb c ".").

(** The first piece of a split is the text before the first separator. *)
Lemma split_first_piece name rest :
  Str.all not_dot name = true ->
  hd "" (Str.split "." (name ++ "." ++ rest)) = name.
Proof.
  intros H. induction name as [|c name IH]; simpl in *.
  - reflexivity.
  - apply andb_true_iff in H as [Hc Hn]. unfold not_dot in Hc.
    apply negb_true_iff in Hc. rewrite Hc.
    specialize (IH Hn).
    destruct (Str.split "." (name ++ String "." rest)); simpl in *; congruence.
Qed.

(** C6. For the status document of the example, with exit code 0, the
    collector returns the success variant with exactly one summary:
    hostname [node1] (the text of the DNS name before its first dot),
    online, address [100.1.2.3], received bytes ["2 MB"], and not direct,
    there being no [CurAddr]; the relay and the sent bytes are ["-"]. *)
Theorem example_document_summarised (gettext : string -> string) (m : value) :
  loadPeerStatus gettext Json.parse
    (Resolved {| code := 0; stdout := Some STATUS_DOC; message := m |})
  = Js.Normal (StatusPeers
      [ {| PeerSummary.ip := VStr "100.1.2.3";
           PeerSummary.hostname := VStr "node1";
           PeerSummary.online := VBool true;
           PeerSummary.relay := VStr "-";
           PeerSummary.direct := false;
           PeerSummary.rxBytes := "2 MB";
           PeerSummary.txBytes := "-" |} ]) /\
  (forall name rest,
     Str.all not_dot name = true ->
     hostname_of (VObj [("DNSName", VStr (name ++ "." ++ rest))])
     = Js.Normal (VStr name)).
Proof.
  split; [vm_compute; reflexivity|].
  intros name rest H. unfold hostname_of.
  change (Js.get (VObj [("DNSName", VStr (name ++ "." ++ rest))]) "DNSName")
    with (Js.Normal (VStr (name ++ "." ++ rest))).
  cbn [Js.bind Js.truthy].
  replace (Str.truthy (name ++ "." ++ rest)) with true
    by (destruct name; reflexivity).
  now rewrite split_first_piece.
Qed.

(** The property [k] of a value that is neither [null] nor [undefined]. *)
Definition property (v : value) (k : string) : value :=
  match v with
  | VObj props => match Js.assoc k props with Some x => x | None => VUndefined end
  | _ => VUndefined
  end.

(** The values [Object.values] lists, for a value it accepts. *)
Definition members (v : value) : list value :=
  match Js.values v with
  | Js.Normal entries => entries
  | Js.Throw _ => []
  end.






Lemma get_property v k :
  v <> VNull -> v <> VUndefined -> Js.get v k = Js.Normal (property v k).
Proof. destruct v; simpl; congruence. Qed.








(** * Further properties of the collectors *)

Module TrimFacts.

Import StrFacts.

(** The last character of [s] is in the class [p]. *)
Fixpoint ends (p : ascii -> bool) (s : string) : bool :=
  match s with
  | EmptyString => false
  | String c EmptyString => p c
  | String _ s' => ends p s'
  end.

Lemma drop_while_skip (p : ascii -> bool) (a b : string) :
  Str.all p a = true -> Str.drop_while p (a ++ b) = Str.drop_while p b.
Proof.
  intros H. induction a as [|c a IH]; simpl in *; [reflexivity|].
  apply andb_true_iff in H as [Hc Ha]. rewrite Hc. now apply IH.
Qed.

Lemma drop_while_nil_all (p : ascii -> bool) (s : string) :
  Str.drop_while p s = "" -> Str.all p s = true.
Proof.
  induction s as [|c s IH]; simpl; [reflexivity|].
  destruct (p c); [exact IH | discriminate].
Qed.

Lemma drop_while_keep (p : ascii -> bool) (a b : string) :
  Str.drop_while p a <> "" ->
  Str.drop_while p (a ++ b) = Str.drop_while p a ++ b.
Proof.
  induction a as [|c a IH]; simpl; [congruence|].
  destruct (p c); [exact IH | reflexivity].
Qed.

Lemma trimEnd_blank (s : string) : Str.all Str.is_ws s = true -> Str.trimEnd s = "".
Proof.
  induction s as [|c s IH]; simpl; [reflexivity|].
  intros H. apply andb_true_iff in H as [Hc Hs]. now rewrite (IH Hs), Hc.
Qed.

Lemma trimEnd_skip (a trail : string) :
  Str.all Str.is_ws trail = true -> Str.trimEnd (a ++ trail) = Str.trimEnd a.
Proof.
  intros H. induction a as [|c a IH]; simpl.
  - now apply trimEnd_blank.
  - now rewrite IH.
Qed.

(** What [trimEnd] removes is white space. *)
Lemma trimEnd_split (s : string) :
  exists trail, s = Str.trimEnd s ++ trail /\ Str.all Str.is_ws trail = true.
Proof.
  induction s as [|c s (trail & E & H)]; simpl.
  - exists "". split; reflexivity.
  - destruct (Str.trimEnd s) as [|d t] eqn:Et.
    + destruct (Str.is_ws c) eqn:Ec.
      * exists (String c s). split; [reflexivity|].
        simpl. rewrite Ec. simpl in E. now rewrite E.
      * exists trail. split; [|exact H]. simpl. now rewrite E at 1.
    + exists trail. split; [|exact H]. simpl. now rewrite E at 1.
Qed.

Lemma ends_trimEnd (s : string) : ends Str.is_ws (Str.trimEnd s) = false.
Proof.
  induction s as [|c s IH]; simpl; [reflexivity|].
  destruct (Str.trimEnd s) as [|d t].
  - destruct (Str.is_ws c) eqn:Ec; simpl; [reflexivity | exact Ec].
  - exact IH.
Qed.

Lemma trimEnd_nil (s : string) :
  Str.trimEnd s = "" -> starts Str.is_ws s = false -> s = "".
Proof.
  destruct s as [|c s]; simpl; [reflexivity|]. intros H Hc.
  destruct (Str.trimEnd s); [rewrite Hc in H|]; discriminate.
Qed.

(** [trim] splits a text into white space, the trimmed text and white
    space; the trimmed text neither starts nor ends with white space. *)
Lemma trim_split (s : string) :
  exists lead trail,
    s = lead ++ Str.trim s ++ trail /\
    Str.all Str.is_ws lead = true /\ Str.all Str.is_ws trail = true /\
    starts Str.is_ws (Str.trim s) = false /\
    ends Str.is_ws (Str.trim s) = false.
Proof.
  unfold Str.trim, Str.trimStart.
  destruct (trimEnd_split (Str.drop_while Str.is_ws s)) as (trail & E & H).
  exists (Str.take_while Str.is_ws s), trail. repeat split.
  - rewrite <- E. apply take_drop.
  - apply all_take_while.
  - exact H.
  - apply starts_trimEnd, starts_drop_while.
  - apply ends_trimEnd.
Qed.

Lemma trim_nil_iff (s : string) : Str.trim s = "" <-> Str.all Str.is_ws s = true.
Proof.
  split; [|apply trim_blank].
  unfold Str.trim, Str.trimStart. intros H.
  apply drop_while_nil_all, trimEnd_nil; [exact H | apply starts_drop_while].
Qed.

(** White space around a text does not change what [trim] gives. *)
Lemma trim_padded (lead text trail : string) :
  Str.all Str.is_ws lead = true -> Str.all Str.is_ws trail = true ->
  Str.trim (lead ++ text ++ trail) = Str.trim text.
Proof.
  intros Hl Ht. unfold Str.trim, Str.trimStart.
  rewrite drop_while_skip by exact Hl.
  destruct (Str.drop_while Str.is_ws text) as [|c r] eqn:E.
  - apply drop_while_nil_all in E.
    rewrite drop_while_skip by exact E.
    rewrite (drop_while_all _ _ Ht). reflexivity.
  - rewrite drop_while_keep by (rewrite E; discriminate).
    rewrite E. now apply trimEnd_skip.
Qed.

End TrimFacts.

(** ** More on the interface collector *)

Lemma first_some_in f lines t :
  Scan.first_some f lines = Some t -> exists line, In line lines /\ f line = Some t.
Proof.
  induction lines as [|l lines IH]; simpl; [discriminate|].
  destruct (f l) as [t'|] eqn:E.
  - intros [= <-]. exists l. auto.
  - intros H. destruct (IH H) as (line & Hin & Hf). exists line. auto.
Qed.

Lemma scan_reply_cases ipRes :
  scan_reply ipRes = no_addresses \/
  exists reply out,
    ipRes = Some reply /\ code reply = 0 /\ stdout reply = Some out /\
    scan_reply ipRes = scan_output out.
Proof.
  destruct ipRes as [reply|]; simpl; [|now left].
  destruct (code reply =? 0) eqn:Ec; simpl; [|now left].
  destruct (stdout reply) as [out|] eqn:Eo; simpl; [|now left].
  destruct (Str.truthy out); [|now left].
  right. exists reply, out. apply Z.eqb_eq in Ec. auto.
Qed.

(** X1. In every record the collector returns, the IPv4 field is ["-"] or
    the token of a line of the command's output (exit code 0): a non-empty
    text of digits and dots. The IPv6 field is ["-"] or the token of such a
    line: a non-empty text of hexadecimal digits and colons that does not
    start with [fe80]. Neither field is ever empty. *)
Theorem addresses_well_formed (rx tx mtu : read_result)
    (ipRes : option exec_result) (info : InterfaceInfo.t) :
  loadInterfaceInfo rx tx mtu ipRes = Some info ->
  (InterfaceInfo.ipv4 info = "-" \/
   (exists reply out line,
      ipRes = Some reply /\ code reply = 0 /\ stdout reply = Some out /\
      In line (Str.split Str.LF out) /\
      ipv4Match line = Some (InterfaceInfo.ipv4 info)) /\
   InterfaceInfo.ipv4 info <> "" /\
   Str.all Str.is_digit_dot (InterfaceInfo.ipv4 info) = true) /\
  (InterfaceInfo.ipv6 info = "-" \/
   (exists reply out line,
      ipRes = Some reply /\ code reply = 0 /\ stdout reply = Some out /\
      In line (Str.split Str.LF out) /\
      ipv6Match line = Some (InterfaceInfo.ipv6 info)) /\
   InterfaceInfo.ipv6 info <> "" /\
   Str.all Str.is_hex_colon (InterfaceInfo.ipv6 info) = true /\
   Str.startsWith (InterfaceInfo.ipv6 info) "fe80" = false).
Proof.
  unfold loadInterfaceInfo. destruct (_ && _); [discriminate|].
  intros [= <-]. simpl.
  destruct (scan_reply_cases ipRes) as [-> | (reply & out & Hr & Hc & Ho & ->)].
  { split; left; reflexivity. }
  destruct (Scan.scan_output_spec out) as [-> ->]. split.
  - destruct (Scan.first_some ipv4Match (Str.split Str.LF out)) as [t|] eqn:E;
      [|left; reflexivity].
    destruct (first_some_in _ _ _ E) as (line & Hin & Hm).
    assert (Ht := Scan.match_marker_truthy _ _ _ _ Hm).
    simpl. rewrite Ht. right.
    destruct (Scan.match_marker_sound _ _ _ _ Hm)
      as (_ & _ & _ & _ & _ & _ & _ & Hall & Hne & _).
    split; [|split; assumption]. exists reply, out, line. auto.
  - destruct (Scan.first_some Scan.global6 (Str.split Str.LF out)) as [t|] eqn:E;
      [|left; reflexivity].
    destruct (first_some_in _ _ _ E) as (line & Hin & Hg).
    assert (Ht := Scan.global6_truthy _ _ Hg).
    simpl. rewrite Ht. right.
    unfold Scan.global6 in Hg.
    destruct (ipv6Match line) as [t'|] eqn:Hm; [|discriminate].
    destruct (Str.startsWith t' "fe80") eqn:Hf; [discriminate|].
    injection Hg as ->.
    destruct (Scan.match_marker_sound _ _ _ _ Hm)
      as (_ & _ & _ & _ & _ & _ & _ & Hall & Hne & _).
    split; [|split; [|split]; assumption]. exists reply, out, line. auto.
Qed.

Lemma addresses_well_formed_witness :
  ("100.80.52.1" = "-" \/
   (exists reply out line,
      address_reply (LINE_INET ++ String Str.LF LINE_INET6_LINK) VUndefined
        = Some reply /\ code reply = 0 /\ stdout reply = Some out /\
      In line (Str.split Str.LF out) /\ ipv4Match line = Some "100.80.52.1") /\
   "100.80.52.1" <> "" /\ Str.all Str.is_digit_dot "100.80.52.1" = true) /\
  "-" = "-".
Proof.
  destruct (addresses_well_formed None None None
              (address_reply (LINE_INET ++ String Str.LF LINE_INET6_LINK) VUndefined)
              {| InterfaceInfo.name := "tailscale0";
                 InterfaceInfo.rxBytes := "-";
                 InterfaceInfo.txBytes := "-";
                 InterfaceInfo.mtu := "-";
                 InterfaceInfo.ipv4 := "100.80.52.1";
                 InterfaceInfo.ipv6 := "-" |} eq_refl) as [H4 _].
  split; [exact H4 | reflexivity].
Defined.

(** X2. No line is accepted by both patterns: after [inet] the one wants
    white space and the other a [6]. So one line of the output never
    supplies both addresses. *)
Theorem patterns_exclusive (line : string) (st : addresses) :
  (ipv4Match line = None \/ ipv6Match line = None) /\
  (found_ipv4 (scan_line st line) = found_ipv4 st \/
   found_ipv6 (scan_line st line) = found_ipv6 st).
Proof.
  assert (X : ipv4Match line = None \/ ipv6Match line = None).
  { destruct (ipv4Match line) as [t4|] eqn:E4; [|now left]. right.
    destruct (ipv6Match line) as [t6|] eqn:E6; [|reflexivity]. exfalso.
    unfold ipv4Match, ipv6Match, match_marker in E4, E6.
    destruct (Str.strip_prefix "inet" (Str.drop_while Str.is_ws line))
      as [a4|] eqn:S4; [|discriminate].
    destruct (Str.strip_prefix "inet6" (Str.drop_while Str.is_ws line))
      as [a6|] eqn:S6; [|discriminate].
    apply StrFacts.strip_prefix_inv in S4, S6. rewrite S4 in S6.
    injection S6 as ->. simpl in E4. discriminate. }
  split; [exact X|].
  unfold scan_line.
  destruct X as [-> | ->].
  - left. destruct (ipv6Match line); [|reflexivity].
    destruct (_ && _); reflexivity.
  - right. destruct (ipv4Match line); [|reflexivity].
    destruct (negb _); reflexivity.
Qed.

(** X3. When the MTU file was read with a text that is not empty, the MTU
    field is that text without the white space around it: it neither
    starts nor ends with white space, and it is empty (not ["-"]) exactly
    when the text is white space only. *)
Theorem mtu_is_trimmed_text (rx tx mtu : read_result)
    (ipRes : option exec_result) (info : InterfaceInfo.t) (text : string) :
  loadInterfaceInfo rx tx mtu ipRes = Some info ->
  mtu = Some text -> text <> "" ->
  (exists lead trail,
     text = lead ++ InterfaceInfo.mtu info ++ trail /\
     Str.all Str.is_ws lead = true /\ Str.all Str.is_ws trail = true) /\
  StrFacts.starts Str.is_ws (InterfaceInfo.mtu info) = false /\
  TrimFacts.ends Str.is_ws (InterfaceInfo.mtu info) = false /\
  (InterfaceInfo.mtu info = "" <-> Str.all Str.is_ws text = true).
Proof.
  unfold loadInterfaceInfo. destruct (_ && _); [discriminate|].
  intros [= <-] -> Hne. simpl.
  apply StrFacts.truthy_true in Hne. rewrite Hne.
  destruct (TrimFacts.trim_split text) as (lead & trail & E & Hl & Ht & Hs & He).
  split; [exists lead, trail; auto|].
  split; [exact Hs|]. split; [exact He|]. apply TrimFacts.trim_nil_iff.
Qed.

Lemma mtu_is_trimmed_text_witness :
  (exists lead trail,
     " 1280" ++ String Str.LF "" = lead ++ "1280" ++ trail /\
     Str.all Str.is_ws lead = true /\ Str.all Str.is_ws trail = true) /\
  StrFacts.starts Str.is_ws "1280" = false /\
  TrimFacts.ends Str.is_ws "1280" = false /\
  ("1280" = "" <-> Str.all Str.is_ws (" 1280" ++ String Str.LF "") = true).
Proof.
  apply (mtu_is_trimmed_text None None (Some (" 1280" ++ String Str.LF "")) None
           {| InterfaceInfo.name := "tailscale0";
              InterfaceInfo.rxBytes := "-";
              InterfaceInfo.txBytes := "-";
              InterfaceInfo.mtu := "1280";
              InterfaceInfo.ipv4 := "-";
              InterfaceInfo.ipv6 := "-" |} (" 1280" ++ String Str.LF ""));
    first [ reflexivity | discriminate ].
Defined.

(** A read result with white space put around its text. *)
Definition padded (lead trail : string) (r : read_result) : read_result :=
  option_map (fun text => lead ++ text ++ trail) r.

Lemma padded_truthy lead trail r :
  r <> Some "" -> truthy_text (padded lead trail r) = truthy_text r.
Proof.
  destruct r as [[|c s]|]; simpl; try congruence.
  intros _. destruct lead; reflexivity.
Qed.

Lemma padded_bytes lead trail r :
  Str.all Str.is_ws lead = true -> Str.all Str.is_ws trail = true ->
  r <> Some "" -> bytes_field (padded lead trail r) = bytes_field r.
Proof.
  intros Hl Ht Hr. assert (T := padded_truthy lead trail r Hr).
  destruct r as [text|]; simpl in *; [|reflexivity].
  rewrite T. now rewrite TrimFacts.trim_padded.
Qed.

Lemma padded_mtu lead trail r :
  Str.all Str.is_ws lead = true -> Str.all Str.is_ws trail = true ->
  r <> Some "" -> mtu_field (padded lead trail r) = mtu_field r.
Proof.
  intros Hl Ht Hr. assert (T := padded_truthy lead trail r Hr).
  destruct r as [text|]; simpl in *; [|reflexivity].
  rewrite T. now rewrite TrimFacts.trim_padded.
Qed.

(** X4. White space before and after the text of the three files changes
    nothing in the result, as long as none of the texts is empty: the
    counters and the MTU are read from the trimmed text. *)
Theorem padding_ignored (rx tx mtu : read_result) (ipRes : option exec_result)
    (lead trail : string) :
  Str.all Str.is_ws lead = true -> Str.all Str.is_ws trail = true ->
  rx <> Some "" -> tx <> Some "" -> mtu <> Some "" ->
  loadInterfaceInfo (padded lead trail rx) (padded lead trail tx)
    (padded lead trail mtu) ipRes
  = loadInterfaceInfo rx tx mtu ipRes.
Proof.
  intros Hl Ht Hrx Htx Hm. unfold loadInterfaceInfo.
  rewrite !padded_truthy, !padded_bytes, padded_mtu by assumption.
  reflexivity.
Qed.

Lemma padding_ignored_witness :
  loadInterfaceInfo (padded " " (String Str.LF "") (Some "2097152"))
    (padded " " (String Str.LF "") None)
    (padded " " (String Str.LF "") (Some "1280")) None
  = loadInterfaceInfo (Some "2097152") None (Some "1280") None.
Proof.
  apply (padding_ignored (Some "2097152") None (Some "1280") None
           " " (String Str.LF ""));
    first [ reflexivity | discriminate ].
Defined.

(** ** More on the peer-status collector *)

Lemma summarise_all_inv entries : forall summaries,
  summarise_all entries = Js.Normal summaries ->
  Forall2 (fun e s => summarise e = Js.Normal s) entries summaries.
Proof.
  induction entries as [|e entries IH]; intros summaries; simpl.
  - intros [= <-]. constructor.
  - destruct (summarise e) as [s|] eqn:Es; simpl; [|discriminate].
    destruct (summarise_all entries) as [l|] eqn:El; simpl; [|discriminate].
    intros [= <-]. constructor; auto.
Qed.

(** The entries the loop goes over: those of [Peer], none when it is
    falsy. *)
Definition entries_of (doc : value) : list value :=
  if Js.truthy (property doc "Peer") then members (property doc "Peer") else [].

(** X5. The collector returns a list of peers only when the command was
    resolved with exit code 0 and an output that is not blank, that
    [JSON.parse] accepts, as a document that is not [null]; and then the
    list holds the summary of every entry of [Peer], one for one and in
    the order of [Object.values]: nothing is dropped, added or reordered. *)
Theorem peer_list_faithful (gettext : string -> string)
    (JSON_parse : string -> Js.completion value) (outcome : exec_outcome)
    (peerList : list PeerSummary.t) :
  loadPeerStatus gettext JSON_parse outcome = Js.Normal (StatusPeers peerList) ->
  exists reply out doc,
    outcome = Resolved reply /\ code reply = 0 /\ stdout reply = Some out /\
    Str.trim out <> "" /\ JSON_parse out = Js.Normal doc /\
    doc <> VNull /\ doc <> VUndefined /\
    Forall2 (fun e s => summarise e = Js.Normal s) (entries_of doc) peerList /\
    List.length peerList = List.length (entries_of doc).
Proof.
  intros H.
  destruct outcome as [reply| |err]; [| discriminate H |].
  2:{ rewrite loadPeerStatus_rejected in H.
      destruct (classify_error gettext (message_text (caught err))) as [msg E].
      rewrite E in H. discriminate. }
  destruct (Z.eq_dec (code reply) 0) as [Hc|Hc].
  2:{ rewrite (loadPeerStatus_failed gettext JSON_parse (Resolved reply) reply
                 eq_refl Hc) in H.
      destruct (classify_error gettext (message_text reply)) as [msg E].
      rewrite E in H. discriminate. }
  destruct (blank_output reply) eqn:Hb.
  { rewrite (loadPeerStatus_blank gettext JSON_parse (Resolved reply) reply
               eq_refl Hc Hb) in H.
    discriminate. }
  destruct (stdout reply) as [out|] eqn:Ho.
  2:{ unfold blank_output in Hb. rewrite Ho in Hb. discriminate. }
  rewrite (loadPeerStatus_parsed gettext JSON_parse reply out Hc Ho Hb) in H.
  unfold parse_status in H.
  destruct (JSON_parse out) as [doc|] eqn:Hp; [|discriminate]. cbn [Js.bind] in H.
  assert (Hd : doc <> VNull /\ doc <> VUndefined).
  { split; intros ->; discriminate. }
  destruct Hd as [N1 N2].
  unfold peers_of_document in H. rewrite (get_property doc "Peer" N1 N2) in H.
  cbn [Js.bind] in H.
  assert (Hv : Js.values (Js.or (property doc "Peer") (VObj []))
               = Js.Normal (entries_of doc)).
  { unfold Js.or, entries_of, members.
    destruct (Js.truthy (property doc "Peer")) eqn:Et; [|reflexivity].
    destruct (property doc "Peer"); try reflexivity; discriminate. }
  rewrite Hv in H. cbn [Js.bind] in H.
  destruct (summarise_all (entries_of doc)) as [l|] eqn:El; [|discriminate].
  injection H as <-.
  assert (F := summarise_all_inv _ _ El).
  exists reply, out, doc. repeat split; auto.
  - unfold blank_output in Hb. rewrite Ho in Hb.
    apply orb_false_iff in Hb as [_ Hb]. now apply String.eqb_neq.
  - symmetry. eapply Forall2_length, F.
Qed.

Lemma peer_list_faithful_witness :
  exists reply out doc,
    Resolved {| code := 0; stdout := Some STATUS_DOC; message := VUndefined |}
      = Resolved reply /\ code reply = 0 /\ stdout reply = Some out /\
    Str.trim out <> "" /\ Json.parse out = Js.Normal doc /\
    doc <> VNull /\ doc <> VUndefined /\
    Forall2 (fun e s => summarise e = Js.Normal s) (entries_of doc)
      [ {| PeerSummary.ip := VStr "100.1.2.3";
           PeerSummary.hostname := VStr "node1";
           PeerSummary.online := VBool true;
           PeerSummary.relay := VStr "-";
           PeerSummary.direct := false;
           PeerSummary.rxBytes := "2 MB";
           PeerSummary.txBytes := "-" |} ] /\
    List.length
      [ {| PeerSummary.ip := VStr "100.1.2.3";
           PeerSummary.hostname := VStr "node1";
           PeerSummary.online := VBool true;
           PeerSummary.relay := VStr "-";
           PeerSummary.direct := false;
           PeerSummary.rxBytes := "2 MB";
           PeerSummary.txBytes := "-" |} ] = List.length (entries_of doc).
Proof.
  apply (peer_list_faithful untranslated Json.parse).
  vm_compute. reflexivity.
Defined.

(** The first piece of a split is the text up to the first separator, or
    the whole text when there is none. *)
Lemma split_hd_prefix (s : string) :
  exists rest,
    s = hd "" (Str.split "." s) ++ rest /\
    Str.all not_dot (hd "" (Str.split "." s)) = true /\
    (rest = "" \/ exists r, rest = String "." r).
Proof.
  induction s as [|c s (rest & E & Hall & Hrest)]; simpl.
  - exists "". auto.
  - destruct (Ascii.eqb c ".") eqn:Ec.
    + apply Ascii.eqb_eq in Ec. subst c. exists (String "." s). simpl. eauto.
    + destruct (Str.split "." s) as [|piece pieces]; simpl in *.
      * exists rest. unfold not_dot at 1. rewrite Ec. simpl.
        split; [now rewrite E at 1|]. auto.
      * exists rest. unfold not_dot at 1. rewrite Ec. simpl.
        split; [now rewrite E at 1|]. auto.
Qed.

(** X6. The hostname of a peer. When [DNSName] is a string that is not
    empty, the hostname is its text up to the first dot (the whole text
    when it has no dot; empty when it starts with one), so it holds no
    dot. When [DNSName] is falsy, the hostname is [HostName] if that is
    truthy, and ["-"] otherwise. *)
Theorem hostname_derivation (peer host : value) :
  hostname_of peer = Js.Normal host ->
  (forall s, property peer "DNSName" = VStr s -> s <> "" ->
     exists h rest,
       host = VStr h /\ s = h ++ rest /\ Str.all not_dot h = true /\
       (rest = "" \/ exists r, rest = String "." r)) /\
  (Js.truthy (property peer "DNSName") = false ->
     host = if Js.truthy (property peer "HostName")
            then property peer "HostName" else VStr "-").
Proof.
  intros H.
  assert (N : peer <> VNull /\ peer <> VUndefined).
  { split; intros ->; discriminate. }
  destruct N as [N1 N2].
  unfold hostname_of in H.
  rewrite (get_property peer "DNSName" N1 N2) in H. cbn [Js.bind] in H.
  split.
  - intros s Es Hne. rewrite Es in H.
    apply StrFacts.truthy_true in Hne. cbn [Js.truthy] in H. rewrite Hne in H.
    injection H as <-.
    destruct (split_hd_prefix s) as (rest & E & Hall & Hrest).
    exists (hd "" (Str.split "." s)), rest. auto.
  - intros Hf. rewrite Hf in H.
    rewrite (get_property peer "HostName" N1 N2) in H. cbn [Js.bind] in H.
    injection H as <-. reflexivity.
Qed.

Lemma hostname_derivation_witness :
  (forall s,
     property (VObj [("DNSName", VStr "node1.tailnetxyz.ts.net.")]) "DNSName"
       = VStr s -> s <> "" ->
     exists h rest,
       VStr "node1" = VStr h /\ s = h ++ rest /\ Str.all not_dot h = true /\
       (rest = "" \/ exists r, rest = String "." r)) /\
  (Js.truthy (property (VObj [("DNSName", VStr "node1.tailnetxyz.ts.net.")])
                "DNSName") = false ->
     VStr "node1"
     = if Js.truthy (property (VObj [("DNSName", VStr "node1.tailnetxyz.ts.net.")])
                       "HostName")
       then property (VObj [("DNSName", VStr "node1.tailnetxyz.ts.net.")]) "HostName"
       else VStr "-").
Proof.
  apply (hostname_derivation
           (VObj [("DNSName", VStr "node1.tailnetxyz.ts.net.")]) (VStr "node1")).
  reflexivity.
Defined.

(** X7. The fallback texts. A reply with an exit code other than 0 whose
    [message] is not a string (the replies of the host carry none) is
    reported as the generic failure with the text [Command failed], never
    as a permission or a service failure, whatever its output. A rejection
    whose error has no message, or an empty one, is reported as the generic
    failure with the text [Failed to execute tailscale command]. *)
Theorem fallback_messages (gettext : string -> string)
    (JSON_parse : string -> Js.completion value) :
  (forall reply,
     code reply <> 0 -> (forall m, message reply <> VStr m) ->
     loadPeerStatus gettext JSON_parse (Resolved reply)
     = Js.Normal (StatusError
         (Format.format_s (gettext MSG_UNABLE) "Command failed"))) /\
  (forall err_message,
     Js.truthy err_message = false ->
     loadPeerStatus gettext JSON_parse (Rejected err_message)
     = Js.Normal (StatusError
         (Format.format_s (gettext MSG_UNABLE)
            "Failed to execute tailscale command"))) /\
  (forall err_message,
     Js.truthy err_message = true -> (forall m, err_message <> VStr m) ->
     loadPeerStatus gettext JSON_parse (Rejected err_message)
     = Js.Normal (StatusError
         (Format.format_s (gettext MSG_UNABLE) "Command failed"))).
Proof.
  split; [|split].
  - intros reply Hc Hm.
    rewrite (loadPeerStatus_failed gettext JSON_parse (Resolved reply) reply
               eq_refl Hc).
    unfold message_text.
    destruct (message reply) as [| |b|q|s|l|l] eqn:E;
      try reflexivity. now elim (Hm s).
  - intros err Hf. rewrite loadPeerStatus_rejected.
    unfold caught, message_text, Js.or. cbn [message]. rewrite Hf.
    reflexivity.
  - intros err Ht Hm. rewrite loadPeerStatus_rejected.
    unfold caught, message_text, Js.or. cbn [message]. rewrite Ht.
    destruct err as [| |b|q|s|l|l]; try reflexivity. now elim (Hm s).
Qed.

Lemma app_nonempty (a b : string) : b <> "" -> a ++ b <> "".
Proof. destruct a, b; simpl; congruence. Qed.

Lemma counter_field_nonempty raw : counter_field raw <> "".
Proof.
  unfold counter_field. destruct (Js.truthy raw); [|discriminate].
  unfold Format.format_1024mB, Format.megabytes.
  destruct raw; apply app_nonempty, app_nonempty; discriminate.
Qed.

Lemma or_dash_truthy v : Js.truthy (Js.or v (VStr "-")) = true.
Proof. unfold Js.or. destruct (Js.truthy v) eqn:E; [exact E | reflexivity]. Qed.

(** X8. In every summary the loop produces, the address and the relay are
    truthy (the value of the record, or ["-"]), the two counters are texts
    that are not empty, the hostname is neither [undefined] nor [null],
    [direct] is the truthiness of [CurAddr] and [online] is the value of
    [Online] as it stands (possibly [undefined]). *)
Theorem summary_cells_defined (peer : value) (summary : PeerSummary.t) :
  summarise peer = Js.Normal summary ->
  Js.truthy (PeerSummary.ip summary) = true /\
  Js.truthy (PeerSummary.relay summary) = true /\
  PeerSummary.rxBytes summary <> "" /\
  PeerSummary.txBytes summary <> "" /\
  PeerSummary.hostname summary <> VUndefined /\
  PeerSummary.hostname summary <> VNull /\
  PeerSummary.direct summary = Js.truthy (property peer "CurAddr") /\
  PeerSummary.online summary = property peer "Online".
Proof.
  intros H.
  assert (N : peer <> VNull /\ peer <> VUndefined).
  { split; intros ->; discriminate. }
  destruct N as [N1 N2].
  unfold summarise in H.
  destruct (hostname_of peer) as [host|] eqn:Eh; [|discriminate].
  cbn [Js.bind] in H.
  rewrite !(get_property peer _ N1 N2) in H. cbn [Js.bind] in H.
  injection H as <-. simpl.
  assert (Hh : host <> VUndefined /\ host <> VNull).
  { unfold hostname_of in Eh.
    rewrite (get_property peer "DNSName" N1 N2) in Eh. cbn [Js.bind] in Eh.
    destruct (Js.truthy (property peer "DNSName")).
    - destruct (property peer "DNSName"); try discriminate.
      injection Eh as <-. split; discriminate.
    - rewrite (get_property peer "HostName" N1 N2) in Eh. cbn [Js.bind] in Eh.
      injection Eh as <-.
      assert (T := or_dash_truthy (property peer "HostName")).
      split; intros E; rewrite E in T; discriminate. }
  destruct Hh as [H1 H2].
  repeat split; auto using or_dash_truthy, counter_field_nonempty.
Qed.

Lemma summary_cells_defined_witness :
  Js.truthy (VStr "-") = true /\ Js.truthy (VStr "-") = true /\
  "-" <> "" /\ "-" <> "" /\ VStr "-" <> VUndefined /\ VStr "-" <> VNull /\
  false = Js.truthy (property (VObj []) "CurAddr") /\
  VUndefined = property (VObj []) "Online".
Proof.
  apply (summary_cells_defined (VObj [])
           {| PeerSummary.ip := VStr "-";
              PeerSummary.hostname := VStr "-";
              PeerSummary.online := VUndefined;
              PeerSummary.relay := VStr "-";
              PeerSummary.direct := false;
              PeerSummary.rxBytes := "-";
              PeerSummary.txBytes := "-" |}).
  reflexivity.
Defined.

(** * The tables of the view

    The rendering functions build their result with the host's [E(tag,
    attributes, content)]. A node is that call as it is written: the tag,
    the attributes in the order of the object literal, and the content,
    which is an array of nodes, a text, or a value of the status document
    handed over as it stands. *)

Inductive content (A : Type) : Type :=
  | Nodes (children : list A)
  | Text (s : string)
  | Raw (v : value).
Arguments Nodes {A} children.
Arguments Text {A} s.
Arguments Raw {A} v.

Inductive node : Type :=
  | E (tag : string) (attrs : list (string * string)) (body : content node).

Definition TR : list (string * string) := [("class", "tr")].
Definition TD : list (string * string) := [("class", "td left")].
Definition TD25 : list (string * string) := [("class", "td left"); ("width", "25%")].
Definition TH : list (string * string) := [("class", "th left")].

Section Views.

Variable gettext : string -> string.

(** One row of the interface table of the status view: the label, a
    quarter wide, and the value. *)
Definition info_row (label value : string) : node :=
  E "tr" TR (Nodes [E "td" TD25 (Text (gettext label)); E "td" TD (Text value)]).

(** [renderInterfaceTable] of the status view. *)
Definition renderInterfaceTable (interfaceInfo : option InterfaceInfo.t) : node :=
  match interfaceInfo with
  | None => E "div" [("class", "cbi-value")] (Text (gettext "No interface online."))
  | Some info =>
      E "table" [("class", "table")] (Nodes
        [ E "tr" TR (Nodes
            [E "th" [("class", "th left"); ("colspan", "2")]
               (Text (gettext "Network Interface Information"))]);
          info_row "Interface Name" (InterfaceInfo.name info);
          info_row "IPv4 Address" (InterfaceInfo.ipv4 info);
          info_row "IPv6 Address" (InterfaceInfo.ipv6 info);
          info_row "MTU" (InterfaceInfo.mtu info);
          info_row "Total Download" (InterfaceInfo.rxBytes info);
          info_row "Total Upload" (InterfaceInfo.txBytes info) ])
  end.

(** The two heading rows of the peer table. *)
Definition peer_table_head : list node :=
  [ E "tr" TR (Nodes
      [E "th" [("class", "th left"); ("colspan", "7")] (Text (gettext "Peer Status"))]);
    E "tr" [("class", "tr cbi-section-table-titles")] (Nodes
      [ E "th" TH (Text (gettext "IP"));
        E "th" TH (Text (gettext "Hostname"));
        E "th" TH (Text (gettext "Status"));
        E "th" TH (Text (gettext "Connection"));
        E "th" TH (Text (gettext "Relay"));
        E "th" TH (Text (gettext "Download"));
        E "th" TH (Text (gettext "Upload")) ]) ].

(** A row of one cell over the seven columns. *)
Definition message_row (text : string) : node :=
  E "tr" TR (Nodes [E "td" [("class", "td left"); ("colspan", "7")] (Text text)]).

(** The row of one peer (source lines 184 to 192). *)
Definition peer_row (peer : PeerSummary.t) : node :=
  E "tr" TR (Nodes
    [ E "td" TD (Raw (PeerSummary.ip peer));
      E "td" TD (Raw (PeerSummary.hostname peer));
      E "td" TD (Text (if Js.truthy (PeerSummary.online peer)
                       then gettext "Online" else gettext "Offline"));
      E "td" TD (Text (if PeerSummary.direct peer
                       then gettext "Direct" else gettext "Relayed"));
      E "td" TD (Raw (PeerSummary.relay peer));
      E "td" TD (Text (PeerSummary.rxBytes peer));
      E "td" TD (Text (PeerSummary.txBytes peer)) ]).

(** The rows pushed after the headings: [peerStatus.error] is [undefined]
    on a list of peers, and [peerStatus.peers] is [undefined] on an
    error. *)
Definition peer_table_body (peerStatus : peer_status) : list node :=
  match peerStatus with
  | StatusError error =>
      if Str.truthy error then [message_row error]
      else [message_row (gettext "No peers found.")]
  | StatusPeers [] => [message_row (gettext "No peers found.")]
  | StatusPeers peers => map peer_row peers
  end.

(** [renderPeerTable] of the status view. *)
Definition renderPeerTable (peerStatus : peer_status) : node :=
  E "table" [("class", "table"); ("style", "margin-top: 1em;")]
    (Nodes (peer_table_head ++ peer_table_body peerStatus)%list).

(** [renderContent] of the status view. *)
Definition renderContent (data : load_result) : node :=
  E "div" [] (Nodes [ renderInterfaceTable (interfaceInfo data);
                      renderPeerTable (peerStatus data) ]).

(** One row of the interface view: both cells a quarter wide. *)
Definition interface_row (label value : string) : node :=
  E "tr" TR (Nodes [E "td" TD25 (Text (gettext label)); E "td" TD25 (Text value)]).

(** The six rows pushed for one record (interface.js, lines 75 to 100). *)
Definition interface_rows (interfaceData : InterfaceInfo.t) : list node :=
  [ interface_row "Interface Name" (InterfaceInfo.name interfaceData);
    interface_row "IPv4 Address" (InterfaceInfo.ipv4 interfaceData);
    interface_row "IPv6 Address" (InterfaceInfo.ipv6 interfaceData);
    interface_row "MTU" (InterfaceInfo.mtu interfaceData);
    interface_row "Total Download" (InterfaceInfo.rxBytes interfaceData);
    interface_row "Total Upload" (InterfaceInfo.txBytes interfaceData) ].

(** [renderContent] of the interface view, on the array [load] returns. *)
Definition interface_renderContent (data : list InterfaceInfo.t) : node :=
  match data with
  | [] => E "div" [] (Text (gettext "No interface online."))
  | _ =>
      E "table" [("class", "table")] (Nodes
        (E "th" [("class", "th"); ("colspan", "2")]
           (Text (gettext "Network Interface Information"))
         :: flat_map interface_rows data))
  end.

End Views.

(** *** Reading a table *)

Definition tag_of (n : node) : string := match n with E t _ _ => t end.

Definition children_of (n : node) : list node :=
  match n with
  | E _ _ (Nodes l) => l
  | _ => []
  end.

Fixpoint lookup (k : string) (attrs : list (string * string)) : option string :=
  match attrs with
  | [] => None
  | (k', v) :: rest => if String.eqb k k' then Some v else lookup k rest
  end.

(** The columns a cell takes: its [colspan], one without it. *)
Definition colspan (cell : node) : Z :=
  match cell with
  | E _ attrs _ =>
      match lookup "colspan" attrs with
      | Some text => Num.or_zero (Num.parseInt text)
      | None => 1
      end
  end.

(** The columns a row takes. *)
Definition row_span (row : node) : Z :=
  fold_right (fun cell acc => colspan cell + acc) 0 (children_of row).

(** The text in the second cell of a row. *)
Definition value_text (row : node) : option string :=
  match children_of row with
  | [_; E _ _ (Text s)] => Some s
  | _ => None
  end.

Definition fields (info : InterfaceInfo.t) : list string :=
  [ InterfaceInfo.name info; InterfaceInfo.ipv4 info; InterfaceInfo.ipv6 info;
    InterfaceInfo.mtu info; InterfaceInfo.rxBytes info; InterfaceInfo.txBytes info ].

(** A translation that keeps a text a text: it does not make a message
    empty and does not put a [%s] at its start. *)
Definition keeps_text (gettext : string -> string) : Prop :=
  forall s, s <> "" -> Str.startsWith s "%s" = false ->
  gettext s <> "" /\ Str.startsWith (gettext s) "%s" = false.

Module ViewFacts.

Lemma peer_rows_span g peers :
  Forall (fun row => tag_of row = "tr" /\ row_span row = 7) (map (peer_row g) peers).
Proof.
  induction peers as [|p peers IH]; simpl; constructor;
    [split; reflexivity | exact IH].
Qed.

Lemma body_span g status :
  Forall (fun row => tag_of row = "tr" /\ row_span row = 7) (peer_table_body g status).
Proof.
  destruct status as [error|peers]; simpl.
  - destruct (Str.truthy error); repeat constructor.
  - destruct peers as [|p peers]; [repeat constructor|].
    apply (peer_rows_span g (p :: peers)).
Qed.

Lemma body_length g status :
  List.length (peer_table_body g status)
  = match status with
    | StatusError _ => 1%nat
    | StatusPeers peers => Nat.max 1 (List.length peers)
    end.
Proof.
  destruct status as [error|peers]; simpl.
  - destruct (Str.truthy error); reflexivity.
  - destruct peers as [|p peers]; [reflexivity|].
    simpl. now rewrite length_map.
Qed.

Lemma format_s_nonempty t m :
  t <> "" -> Str.startsWith t "%s" = false -> Format.format_s t m <> "".
Proof.
  destruct t as [|c t]; [congruence|]. intros _ H.
  unfold Str.startsWith in H. cbn [Format.format_s].
  destruct (Str.strip_prefix "%s" (String c t)); discriminate.
Qed.

(** The error messages of the collector are of five kinds. *)
Lemma status_error_cases g P outcome msg :
  loadPeerStatus g P outcome = Js.Normal (StatusError msg) ->
  msg = g MSG_PERMISSION \/ msg = g MSG_NOT_RUNNING \/ msg = g MSG_EMPTY \/
  (exists m, msg = Format.format_s (g MSG_UNABLE) m) \/
  (exists e, msg = Format.format_s (g MSG_PARSE) e).
Proof.
  unfold loadPeerStatus.
  destruct (settle outcome) as [statusRes|]; [|discriminate].
  destruct (negb (code statusRes =? 0)).
  - unfold classify.
    destruct (Str.includes _ "Permission"); [intros [= <-]; now left|].
    destruct (_ || _); intros [= <-].
    + right; now left.
    + right; right; right; left. eexists; reflexivity.
  - destruct (blank_output statusRes).
    + intros [= <-]. right; right; now left.
    + unfold parse_status. destruct (Js.bind _ _); intros [= <-].
      repeat right. eexists; reflexivity.
Qed.

Lemma loadPeerStatus_normal g P outcome :
  outcome <> ResolvedNull ->
  exists status, loadPeerStatus g P outcome = Js.Normal status.
Proof.
  intros Hn. unfold loadPeerStatus.
  destruct outcome as [reply| |err]; [| contradiction |]; cbn [settle].
  - destruct (negb _); [eauto|]. destruct (blank_output _); eauto.
  - destruct (negb _); [eauto|]. destruct (blank_output _); eauto.
Qed.

Lemma interface_rows_shape g info :
  Forall (fun row => tag_of row = "tr" /\ List.length (children_of row) = 2%nat)
    (interface_rows g info) /\
  map value_text (interface_rows g info) = map Some (fields info).
Proof. split; [repeat constructor | reflexivity]. Qed.

Lemma all_interface_rows g data :
  List.length (flat_map (interface_rows g) data) = (6 * List.length data)%nat /\
  Forall (fun row => tag_of row = "tr" /\ List.length (children_of row) = 2%nat)
    (flat_map (interface_rows g) data) /\
  map value_text (flat_map (interface_rows g) data)
  = map Some (flat_map fields data).
Proof.
  induction data as [|info data (L & F & V)]; [repeat split; constructor|].
  destruct (interface_rows_shape g info) as [F1 V1].
  cbn [flat_map]. rewrite length_app, !map_app, L, V, V1.
  split; [simpl; lia|]. split; [|reflexivity].
  apply Forall_app. auto.
Qed.

End ViewFacts.

(** X9. The peer table is a table of rows, two heading rows then the data
    rows: a single row for an error or for an empty list, one row per peer
    otherwise; and every row, headings included, takes exactly seven
    columns. *)
Theorem peer_table_shape (gettext : string -> string) (status : peer_status) :
  tag_of (renderPeerTable gettext status) = "table" /\
  List.length (children_of (renderPeerTable gettext status))
  = (2 + match status with
         | StatusError _ => 1
         | StatusPeers peers => Nat.max 1 (List.length peers)
         end)%nat /\
  Forall (fun row => tag_of row = "tr" /\ row_span row = 7)
    (children_of (renderPeerTable gettext status)).
Proof.
  split; [reflexivity|]. unfold renderPeerTable. cbn [children_of]. split.
  - rewrite length_app, ViewFacts.body_length. reflexivity.
  - apply Forall_app. split; [|apply ViewFacts.body_span].
    repeat constructor.
Qed.

(** X10. An error is drawn like an empty list of peers exactly when its
    text is empty or is the text of the no-peers message; it is never
    drawn like a list that has a peer. *)
Theorem error_drawn_like_empty_list (gettext : string -> string)
    (error : string) (peers : list PeerSummary.t) :
  renderPeerTable gettext (StatusError error)
  = renderPeerTable gettext (StatusPeers peers)
  <-> peers = [] /\ (error = "" \/ error = gettext "No peers found.").
Proof.
  unfold renderPeerTable. split.
  - intros H. apply (f_equal children_of) in H. cbn [children_of] in H.
    apply app_inv_head in H. unfold peer_table_body in H.
    destruct peers as [|p peers].
    + split; [reflexivity|]. simpl in H.
      destruct error as [|c e]; [now left|right].
      simpl in H. now injection H.
    + exfalso. simpl in H.
      destruct (Str.truthy error); discriminate.
  - intros [-> [-> | ->]]; [reflexivity|]. simpl.
    destruct (Str.truthy (gettext "No peers found.")); reflexivity.
Qed.

(** X11. With a translation that keeps the messages texts, every error the
    collector reports has a message that is not empty (one of its five
    kinds), so the peer table shows that message in its one data row and
    never the no-peers text in its place. *)
Theorem collector_errors_displayed (gettext : string -> string)
    (JSON_parse : string -> Js.completion value) (outcome : exec_outcome)
    (msg : string) :
  keeps_text gettext ->
  loadPeerStatus gettext JSON_parse outcome = Js.Normal (StatusError msg) ->
  msg <> "" /\
  (msg = gettext MSG_PERMISSION \/ msg = gettext MSG_NOT_RUNNING \/
   msg = gettext MSG_EMPTY \/
   (exists m, msg = Format.format_s (gettext MSG_UNABLE) m) \/
   (exists e, msg = Format.format_s (gettext MSG_PARSE) e)) /\
  children_of (renderPeerTable gettext (StatusError msg))
  = (peer_table_head gettext ++ [message_row msg])%list.
Proof.
  intros K H. apply ViewFacts.status_error_cases in H.
  assert (Hne : msg <> "").
  { destruct H as [-> | [-> | [-> | [[m ->] | [e ->]]]]].
    - apply K; [discriminate | reflexivity].
    - apply K; [discriminate | reflexivity].
    - apply K; [discriminate | reflexivity].
    - apply ViewFacts.format_s_nonempty; apply K; first [discriminate | reflexivity].
    - apply ViewFacts.format_s_nonempty; apply K; first [discriminate | reflexivity]. }
  split; [exact Hne|]. split; [exact H|].
  simpl. apply StrFacts.truthy_true in Hne. now rewrite Hne.
Qed.

Lemma untranslated_keeps_text : keeps_text untranslated.
Proof. intros s H1 H2. split; assumption. Qed.

Lemma collector_errors_displayed_witness :
  "Tailscale service is not running." <> "" /\
  ("Tailscale service is not running." = untranslated MSG_PERMISSION \/
   "Tailscale service is not running." = untranslated MSG_NOT_RUNNING \/
   "Tailscale service is not running." = untranslated MSG_EMPTY \/
   (exists m, "Tailscale service is not running."
              = Format.format_s (untranslated MSG_UNABLE) m) \/
   (exists e, "Tailscale service is not running."
              = Format.format_s (untranslated MSG_PARSE) e)) /\
  children_of (renderPeerTable untranslated
                 (StatusError "Tailscale service is not running."))
  = (peer_table_head untranslated
     ++ [message_row "Tailscale service is not running."])%list.
Proof.
  apply (collector_errors_displayed untranslated Json.parse
           (Resolved (failed_reply "tailscaled is stopped"))
           "Tailscale service is not running." untranslated_keeps_text).
  reflexivity.
Defined.

(** X12. The interface table of the status view tells the results apart:
    two results are drawn alike only when they are the same, and an absent
    interface is never drawn like a record. *)
Theorem interface_table_injective (gettext : string -> string)
    (a b : option InterfaceInfo.t) :
  renderInterfaceTable gettext a = renderInterfaceTable gettext b -> a = b.
Proof.
  destruct a as [[n1 r1 t1 m1 v1 w1]|], b as [[n2 r2 t2 m2 v2 w2]|]; simpl;
    intros H; try discriminate; [|reflexivity].
  unfold info_row in H. simpl in H. injection H as ? ? ? ? ? ?. now subst.
Qed.

Lemma interface_table_injective_witness :
  loadInterfaceInfo None None (Some "1280") None
  = Some {| InterfaceInfo.name := "tailscale0"; InterfaceInfo.rxBytes := "-";
            InterfaceInfo.txBytes := "-"; InterfaceInfo.mtu := "1280";
            InterfaceInfo.ipv4 := "-"; InterfaceInfo.ipv6 := "-" |}.
Proof.
  apply (interface_table_injective untranslated). reflexivity.
Defined.

(** X13. The interface view draws a list of records that is not empty as a
    table whose first child is the heading cell itself (a [th], not a row),
    followed by six rows per record, each of two cells, whose second cells
    read, in order, the name, the IPv4 and IPv6 addresses, the MTU, the
    received and the sent bytes of each record. *)
Theorem interface_view_table (gettext : string -> string)
    (data : list InterfaceInfo.t) :
  data <> [] ->
  exists heading rows,
    interface_renderContent gettext data
      = E "table" [("class", "table")] (Nodes (heading :: rows)) /\
    tag_of heading = "th" /\ colspan heading = 2 /\
    List.length rows = (6 * List.length data)%nat /\
    Forall (fun row => tag_of row = "tr" /\ List.length (children_of row) = 2%nat)
      rows /\
    map value_text rows = map Some (flat_map fields data).
Proof.
  intros Hne. destruct data as [|info data]; [congruence|].
  destruct (ViewFacts.all_interface_rows gettext (info :: data)) as (L & F & V).
  eexists. exists (flat_map (interface_rows gettext) (info :: data)).
  split; [reflexivity|]. repeat split; assumption.
Qed.

Lemma interface_view_table_witness :
  exists heading rows,
    interface_renderContent untranslated
      [ {| InterfaceInfo.name := "tailscale0"; InterfaceInfo.rxBytes := "2 MB";
           InterfaceInfo.txBytes := "-"; InterfaceInfo.mtu := "1280";
           InterfaceInfo.ipv4 := "100.80.52.1"; InterfaceInfo.ipv6 := "-" |} ]
      = E "table" [("class", "table")] (Nodes (heading :: rows)) /\
    tag_of heading = "th" /\ colspan heading = 2 /\
    List.length rows = 6%nat /\
    Forall (fun row => tag_of row = "tr" /\ List.length (children_of row) = 2%nat)
      rows /\
    map value_text rows
    = [Some "tailscale0"; Some "100.80.52.1"; Some "-"; Some "1280";
       Some "2 MB"; Some "-"].
Proof.
  apply (interface_view_table untranslated
    [ {| InterfaceInfo.name := "tailscale0"; InterfaceInfo.rxBytes := "2 MB";
         InterfaceInfo.txBytes := "-"; InterfaceInfo.mtu := "1280";
         InterfaceInfo.ipv4 := "100.80.52.1"; InterfaceInfo.ipv6 := "-" |} ]).
  discriminate.
Defined.

(** X14. What the interface view shows after a load: the no-interface
    text exactly when the RX read and the MTU read brought no text and the
    address command did not run or exited with a code other than 0; in
    every other case a table of the heading and the six rows of the one
    record. *)
Theorem interface_view_after_load (gettext : string -> string)
    (rx tx mtu : read_result) (ipRes : option exec_result) :
  (interface_renderContent gettext (InterfaceView.load rx tx mtu ipRes)
   = E "div" [] (Text (gettext "No interface online."))
   <-> no_text rx /\ no_text mtu /\ not_run_or_nonzero ipRes) /\
  (forall info,
     loadInterfaceInfo rx tx mtu ipRes = Some info ->
     tag_of (interface_renderContent gettext (InterfaceView.load rx tx mtu ipRes))
       = "table" /\
     map value_text
       (tl (children_of
              (interface_renderContent gettext (InterfaceView.load rx tx mtu ipRes))))
     = map Some (fields info)).
Proof.
  unfold InterfaceView.load. split.
  - rewrite <- !truthy_text_no_text, <- command_failed_iff,
      <- (loadInterfaceInfo_none rx tx mtu ipRes).
    destruct (loadInterfaceInfo rx tx mtu ipRes); simpl; split; intros H;
      first [ discriminate H | reflexivity ].
  - intros info ->. split; reflexivity.
Qed.

(** X15. What the status view shows after a load. The load returns data
    exactly when the four promises of the interface collector are fulfilled
    and the reply of the status command is not [null]; otherwise it throws.
    The data it returns is drawn as a [div] of two children. The first is
    the no-interface text when the interface is absent, and otherwise a
    table of seven rows, each of two columns, whose value cells read the six
    fields of the record in order. The second is the peer table, of at
    least three rows. *)
Theorem status_view_after_load (gettext : string -> string)
    (JSON_parse : string -> Js.completion value) :
  (forall rxP txP mtuP ipP outcome,
     (exists data,
        load gettext JSON_parse rxP txP mtuP ipP outcome = Js.Normal data) <->
     (exists rx tx mtu ipRes,
        rxP = Fulfilled rx /\ txP = Fulfilled tx /\ mtuP = Fulfilled mtu /\
        ipP = Fulfilled ipRes /\ outcome <> ResolvedNull)) /\
  (forall rx tx mtu ipRes outcome data,
     load gettext JSON_parse (Fulfilled rx) (Fulfilled tx) (Fulfilled mtu)
       (Fulfilled ipRes) outcome = Js.Normal data ->
     exists first second,
       interfaceInfo data = loadInterfaceInfo rx tx mtu ipRes /\
       loadPeerStatus gettext JSON_parse outcome = Js.Normal (peerStatus data) /\
       renderContent gettext data = E "div" [] (Nodes [first; second]) /\
       (loadInterfaceInfo rx tx mtu ipRes = None ->
          first = E "div" [("class", "cbi-value")]
                    (Text (gettext "No interface online."))) /\
       (forall info,
          loadInterfaceInfo rx tx mtu ipRes = Some info ->
          tag_of first = "table" /\
          List.length (children_of first) = 7%nat /\
          Forall (fun row => tag_of row = "tr" /\ row_span row = 2)
            (children_of first) /\
          map value_text (tl (children_of first)) = map Some (fields info)) /\
       tag_of second = "table" /\
       (3 <= List.length (children_of second))%nat).
Proof.
  split.
  - intros rxP txP mtuP ipP outcome. split.
    + intros [data H].
      destruct rxP as [rx|r1]; [|discriminate H].
      destruct txP as [tx|r2]; [|discriminate H].
      destruct mtuP as [mtu|r3]; [|discriminate H].
      destruct ipP as [ipRes|r4]; [|discriminate H].
      exists rx, tx, mtu, ipRes. repeat (split; [reflexivity|]).
      intros ->. discriminate H.
    + intros (rx & tx & mtu & ipRes & -> & -> & -> & -> & Hn).
      destruct (ViewFacts.loadPeerStatus_normal gettext JSON_parse outcome Hn)
        as [status Hs].
      eexists. unfold load, loadInterfaceInfo_async. cbn [awaited Js.bind].
      rewrite Hs. reflexivity.
  - intros rx tx mtu ipRes outcome data H.
    unfold load, loadInterfaceInfo_async in H. cbn [awaited Js.bind] in H.
    destruct (loadPeerStatus gettext JSON_parse outcome) as [status|reason] eqn:Hs;
      [|discriminate H].
    cbn [Js.bind] in H. injection H as <-.
    exists (renderInterfaceTable gettext (loadInterfaceInfo rx tx mtu ipRes)),
      (renderPeerTable gettext status).
    split; [reflexivity|]. split; [reflexivity|].
    split; [reflexivity|].
    split; [now intros ->|].
    split.
    + intros info ->. simpl. repeat split; repeat constructor.
    + split; [reflexivity|]. unfold renderPeerTable. cbn [children_of].
      rewrite length_app, ViewFacts.body_length.
      change (List.length (peer_table_head gettext)) with 2%nat.
      destruct status as [|peers]; [lia|]. destruct peers; simpl; lia.
Qed.
